(** * flaskr: session authentication and ownership-checked posts

    A shallow embedding of [flaskr/auth.py] and [flaskr/blog.py]: the two
    tables as lists of rows in rowid order, the signed session cookie as a
    finite map, and every view as a computation in a state-and-exception
    monad over the store, the session, the flashed messages and [g.user]. *)

From stdpp Require Import base strings list gmap sorting pretty.
From Stdlib Require Import ZArith Lia.

(** ** Rows *)

(** A row of table [user]: columns [id], [username], [password]. *)
Module User.
Record row := Row { id : Z; username : string; password : string }.
End User.

(** A row of table [post]. *)
Module Post.
Record row := Row {
  id : Z; title : string; body : string; created : Z; author_id : Z }.
End Post.

(** A row of [SELECT p.id, title, body, created, author_id, username
    FROM post p JOIN user u ON p.author_id = u.id]. *)
Module Joined.
Record row := Row {
  id : Z; title : string; body : string; created : Z; author_id : Z;
  username : string }.
End Joined.

#[global] Instance user_row_eq_dec : EqDecision User.row.
Proof. solve_decision. Defined.
#[global] Instance post_row_eq_dec : EqDecision Post.row.
Proof. solve_decision. Defined.
#[global] Instance joined_row_eq_dec : EqDecision Joined.row.
Proof. solve_decision. Defined.

(** ** The store *)

(** Modelled from the spec: [schema.sql] is not among the sources. The spec
    gives the logical schema [user(id PK, username UNIQUE NOT NULL, password
    TEXT NOT NULL)] and [post(id PK, title NOT NULL, body, created DEFAULT
    now, author_id FK -> user.id)]. Rows are kept in insertion order. *)
Record database := Database {
  users : list User.row;
  posts : list Post.row }.

(** Modelled from the spec: the integer primary key left out of an insert
    is filled with one more than the largest key in use. *)
Definition next_rowid (ids : list Z) : Z := (1 + foldr Z.max 0 ids)%Z.

(** [SELECT * FROM user WHERE username = ?], [.fetchone()] *)
Definition select_user_by_username (d : database) (name : string)
  : option User.row :=
  head (filter (λ u, User.username u = name) (users d)).

(** [SELECT * FROM user WHERE id = ?], [.fetchone()] *)
Definition select_user_by_id (d : database) (uid : Z) : option User.row :=
  head (filter (λ u, User.id u = uid) (users d)).

(** [INSERT INTO user (username, password) VALUES (?, ?)]; [None] is the
    [IntegrityError] of the UNIQUE constraint on [username] (from the
    schema of the spec), and leaves the table as it was. *)
Definition insert_user (d : database) (name hash : string)
  : option database :=
  if decide (name ∈ User.username <$> users d) then None
  else Some (Database
               (users d ++ [User.Row (next_rowid (User.id <$> users d))
                                     name hash])
               (posts d)).

(** [FROM post p JOIN user u ON p.author_id = u.id] with the six selected
    columns. *)
Definition join_row (p : Post.row) (u : User.row) : Joined.row :=
  Joined.Row (Post.id p) (Post.title p) (Post.body p) (Post.created p)
             (Post.author_id p) (User.username u).

Definition authors_of (us : list User.row) (p : Post.row) : list Joined.row :=
  join_row p <$> filter (λ u, Post.author_id p = User.id u) us.

Definition post_join_user (d : database) : list Joined.row :=
  posts d ≫= authors_of (users d).

(** [... WHERE p.id = ?], [.fetchone()] *)
Definition select_post_by_id (d : database) (pid : Z) : option Joined.row :=
  head (filter (λ r, Joined.id r = pid) (post_join_user d)).

(** [... ORDER BY created DESC], [.fetchall()] *)
Definition created_desc (r1 r2 : Joined.row) : Prop :=
  (Joined.created r2 ≤ Joined.created r1)%Z.

#[global] Instance created_desc_dec : RelDecision created_desc.
Proof. intros r1 r2. unfold created_desc. apply _. Defined.

(** The sorter keeps rows of equal [created] in the order of the join, which
    is the order of the rowids: a row goes in front of the first row that
    is not newer than it. *)
Fixpoint insert_newest (r : Joined.row) (l : list Joined.row)
  : list Joined.row :=
  match l with
  | [] => [r]
  | x :: l' => if decide (created_desc r x) then r :: l
               else x :: insert_newest r l'
  end.

Definition select_posts_newest_first (d : database) : list Joined.row :=
  foldr insert_newest [] (post_join_user d).

(** [INSERT INTO post (title, body, author_id) VALUES (?, ?, ?)]; [now] is
    the column default of [created]; the foreign key on [author_id] is
    declared and, as SQLite does unless told otherwise, not enforced. *)
Definition insert_post (d : database) (now : Z) (t b : string) (author : Z)
  : database :=
  Database (users d)
           (posts d ++ [Post.Row (next_rowid (Post.id <$> posts d))
                                 t b now author]).

(** [UPDATE post SET title = ?, body = ? WHERE id = ?] *)
Definition set_title_body (t b : string) (p : Post.row) : Post.row :=
  Post.Row (Post.id p) t b (Post.created p) (Post.author_id p).

Definition update_post (d : database) (t b : string) (pid : Z) : database :=
  Database (users d)
           ((λ p, if decide (Post.id p = pid) then set_title_body t b p
                  else p) <$> posts d).

(** [DELETE FROM post WHERE id = ?] *)
Definition delete_post (d : database) (pid : Z) : database :=
  Database (users d) (filter (λ p, Post.id p ≠ pid) (posts d)).

(** Modelled from the spec: the constraints of the schema, which is not
    among the sources. Both primary keys and the user name are unique, and
    (from [register]) no stored user name is empty. *)
Record wf_database (d : database) : Prop := WfDatabase {
  wf_user_ids : NoDup (User.id <$> users d);
  wf_usernames : NoDup (User.username <$> users d);
  wf_usernames_nonempty : "" ∉ User.username <$> users d;
  wf_post_ids : NoDup (Post.id <$> posts d) }.

(** ** Requests, responses, exceptions *)

Inductive http_method := GET | POST.

#[global] Instance http_method_eq_dec : EqDecision http_method.
Proof. solve_decision. Defined.

Record request := Request {
  method : http_method;
  form : gmap string string }.

(** The endpoints [url_for] is asked for, and the URLs the blueprints give
    them ([url_prefix='/auth'] for [auth], none for [blog], and the extra
    rule [add_url_rule('/', endpoint='index')]). *)
Inductive endpoint := auth_login | index_endpoint | blog_index.

Definition url_for (e : endpoint) : string :=
  match e with
  | auth_login => "/auth/login"
  | index_endpoint => "/"
  | blog_index => "/"
  end.

(** What [render_template] is handed besides the template name. *)
Inductive context :=
  | no_context
  | posts_context (posts : list Joined.row)
  | post_context (post : Joined.row).

Inductive response :=
  | redirect (location : string)
  | render_template (template : string) (ctx : context).

(** [HTTPException] carries the status code of [abort] and its optional
    description; a missing form key is werkzeug's [BadRequestKeyError],
    status 400. [OverflowError] is what [sqlite3] raises for a Python
    [int] that does not fit a SQLite INTEGER. *)
Inductive exception :=
  | HTTPException (code : Z) (description : option string)
  | TypeError
  | OverflowError.

Inductive result (A : Type) :=
  | Ok (a : A)
  | Raise (e : exception).
Arguments Ok {A} a.
Arguments Raise {A} e.

(** ** State

    [db] is the committed store (every statement of the views is followed by
    [db.commit()], so statement and commit are one step); [session] holds
    the keys of the cookie's dict that the views read and write; [flashes]
    is the queue [flash()] appends to, which the framework carries in the
    same cookie under a key of its own, so [session.clear()] empties it as
    well; [g_user] is [g.user]. *)
Record state := State {
  db : database;
  session : gmap string Z;
  flashes : list string;
  g_user : option User.row }.

Definition M (A : Type) : Type := state → result A * state.

Definition ret {A} (a : A) : M A := λ s, (Ok a, s).

Definition bind {A B} (m : M A) (k : A → M B) : M B :=
  λ s, match m s with
       | (Ok a, s') => k a s'
       | (Raise e, s') => (Raise e, s')
       end.

Definition raise {A} (e : exception) : M A := λ s, (Raise e, s).

Definition get_state : M state := λ s, (Ok s, s).

Definition abort {A} (code : Z) (description : option string) : M A :=
  raise (HTTPException code description).

Declare Scope flask_scope.
Delimit Scope flask_scope with flask.
Notation "'let*' x := m 'in' k" := (bind m (λ x, k))
  (at level 10, x name, m at level 100, k at level 200) : flask_scope.
Local Open Scope flask_scope.

Definition set_db (d : database) : M unit :=
  λ s, (Ok tt, State d (session s) (flashes s) (g_user s)).

Definition set_g_user (u : option User.row) : M unit :=
  λ s, (Ok tt, State (db s) (session s) (flashes s) u).

(** [session.clear()] *)
Definition session_clear : M unit :=
  λ s, (Ok tt, State (db s) ∅ [] (g_user s)).

(** [session[key] = v] *)
Definition session_set (key : string) (v : Z) : M unit :=
  λ s, (Ok tt, State (db s) (<[key:=v]> (session s)) (flashes s) (g_user s)).

(** [flash(message)] *)
Definition flash (message : string) : M unit :=
  λ s, (Ok tt, State (db s) (session s) (flashes s ++ [message]) (g_user s)).

(** [request.form[key]] *)
Definition form_get (req : request) (key : string) : M string :=
  match form req !! key with
  | Some v => ret v
  | None => abort 400 None
  end.

(** [g.user['id']]: subscripting [None] is a [TypeError]. *)
Definition g_user_id : M Z :=
  let* s := get_state in
  match g_user s with
  | Some u => ret (User.id u)
  | None => raise TypeError
  end.

(** ** Views *)

Section views.
(** [werkzeug.security]: the salted hash (the salt is the library's
    choice, so any function is admitted) and its verification. *)
Variable generate_password_hash : string → string.
Variable check_password_hash : string → string → bool.
(** [CURRENT_TIMESTAMP] at the time of the request. *)
Variable now : Z.

(** [auth.register] *)
Definition register (req : request) : M response :=
  match method req with
  | POST =>
      let* username := form_get req "username" in
      let* password := form_get req "password" in
      let* s := get_state in
      let error :=
        if decide (username = "") then Some "username not provided"
        else if decide (password = "") then Some "password not provided"
        else None in
      match error with
      | None =>
          match insert_user (db s) username
                            (generate_password_hash password) with
          | Some d' =>
              let* _ := set_db d' in
              ret (redirect (url_for auth_login))
          | None =>
              let* _ := flash ("user " +:+ username
                               +:+ " is already registered") in
              ret (render_template "auth/register.html" no_context)
          end
      | Some e =>
          let* _ := flash e in
          ret (render_template "auth/register.html" no_context)
      end
  | GET => ret (render_template "auth/register.html" no_context)
  end.

(** [auth.login] *)
Definition login (req : request) : M response :=
  match method req with
  | POST =>
      let* username := form_get req "username" in
      let* password := form_get req "password" in
      let* s := get_state in
      match select_user_by_username (db s) username with
      | Some user =>
          if check_password_hash (User.password user) password then
            let* _ := session_clear in
            let* _ := session_set "user_id" (User.id user) in
            ret (redirect (url_for index_endpoint))
          else
            let* _ := flash "incorrect username or password" in
            ret (render_template "auth/login.html" no_context)
      | None =>
          let* _ := flash "incorrect username or password" in
          ret (render_template "auth/login.html" no_context)
      end
  | GET => ret (render_template "auth/login.html" no_context)
  end.

(** [auth.load_logged_in_user], the [before_app_request] hook *)
Definition load_logged_in_user : M unit :=
  let* s := get_state in
  match session s !! "user_id" with
  | None => set_g_user None
  | Some user_id => set_g_user (select_user_by_id (db s) user_id)
  end.

(** [auth.logout] *)
Definition logout : M response :=
  let* _ := session_clear in
  ret (redirect (url_for index_endpoint)).

(** [auth.login_required] *)
Definition login_required {K} (view : K → M response) : K → M response :=
  λ kwargs,
    let* s := get_state in
    match g_user s with
    | None => ret (redirect (url_for auth_login))
    | Some _ => view kwargs
    end.

(** [blog.get_post] *)
Definition get_post (id : Z) (check_author : bool) : M Joined.row :=
  let* s := get_state in
  match select_post_by_id (db s) id with
  | None => abort 404 (Some ("post id " +:+ pretty id
                             +:+ " does not exist"))
  | Some post =>
      if check_author then
        let* uid := g_user_id in
        if decide (Joined.author_id post ≠ uid) then abort 403 None
        else ret post
      else ret post
  end.

(** [blog.index] *)
Definition index : M response :=
  let* s := get_state in
  ret (render_template "blog/index.html"
         (posts_context (select_posts_newest_first (db s)))).

(** [blog.create]; its [@login_required] line is commented out. *)
Definition create (req : request) : M response :=
  match method req with
  | POST =>
      let* title := form_get req "title" in
      let* body := form_get req "body" in
      if decide (title = "") then
        let* _ := flash "title is required" in
        ret (render_template "blog/create.html" no_context)
      else
        let* s := get_state in
        let* uid := g_user_id in
        let* _ := set_db (insert_post (db s) now title body uid) in
        ret (redirect (url_for blog_index))
  | GET => ret (render_template "blog/create.html" no_context)
  end.

(** The body of [blog.update], below its decorators. *)
Definition update_view (req : request) (id : Z) : M response :=
  let* post := get_post id true in
  match method req with
  | POST =>
      let* title := form_get req "title" in
      let* body := form_get req "body" in
      if decide (title = "") then
        let* _ := flash "title is required" in
        ret (render_template "blog/update.html" (post_context post))
      else
        let* s := get_state in
        let* _ := set_db (update_post (db s) title body id) in
        ret (redirect (url_for blog_index))
  | GET => ret (render_template "blog/update.html" (post_context post))
  end.

(** [blog.update] *)
Definition update (req : request) : Z → M response :=
  login_required (update_view req).

(** The body of [blog.delete], below its decorators. *)
Definition delete_view (id : Z) : M response :=
  let* _ := get_post id true in
  let* s := get_state in
  let* _ := set_db (delete_post (db s) id) in
  ret (redirect (url_for blog_index)).

(** [blog.delete] *)
Definition delete : Z → M response := login_required delete_view.
End views.

(** ** The id of the URL

    [<int:id>] hands the view a Python [int] of any size. The first
    statement of [update] and of [delete] is [get_post(id)], whose
    [execute(..., (id,))] binds the id as a SQLite INTEGER: [sqlite3]
    raises [OverflowError] there when the id does not fit 64 bits, and the
    query runs on it when it does. [get_post], [update] and [delete] above
    are the views on an id that is bound; these are the views as the URL
    rules reach them. *)
Definition sqlite_integer (n : Z) : Prop :=
  (- 2 ^ 63 ≤ n < 2 ^ 63)%Z.

#[global] Instance sqlite_integer_dec n : Decision (sqlite_integer n).
Proof. unfold sqlite_integer. apply _. Defined.

Definition bind_integer (n : Z) : M Z :=
  if decide (sqlite_integer n) then ret n else raise OverflowError.

Module Url.
(** [blog.get_post], from the Python [int] *)
Definition get_post (id : Z) (check_author : bool) : M Joined.row :=
  let* i := bind_integer id in
  get_post i check_author.

(** [blog.update], from the Python [int]: the guard, then the bind of
    [get_post], then the rest of the view. *)
Definition update (req : request) : Z → M response :=
  login_required (λ id, let* i := bind_integer id in update_view req i).

(** [blog.delete], from the Python [int] *)
Definition delete : Z → M response :=
  login_required (λ id, let* i := bind_integer id in delete_view i).
End Url.

(** ** Dispatch

    The URL rules of the two blueprints with their [methods]. *)
Section dispatch.
Variable generate_password_hash : string → string.
Variable check_password_hash : string → string → bool.
Variable now : Z.

Inductive route :=
  | route_register | route_login | route_logout | route_index
  | route_create | route_update (id : Z) | route_delete (id : Z).

Definition methods (r : route) : list http_method :=
  match r with
  | route_register | route_login | route_create | route_update _ =>
      [GET; POST]
  | route_logout | route_index => [GET]
  | route_delete _ => [POST]
  end.

Definition dispatch (r : route) (req : request) : M response :=
  if decide (method req ∈ methods r) then
    match r with
    | route_register => register generate_password_hash req
    | route_login => login check_password_hash req
    | route_logout => logout
    | route_index => index
    | route_create => create now req
    | route_update id => Url.update req id
    | route_delete id => Url.delete id
    end
  else abort 405 None.

(** One request: the [before_app_request] hook, then the view. *)
Definition handle_request (r : route) (req : request) : M response :=
  let* _ := load_logged_in_user in
  dispatch r req.
End dispatch.

(** ** A small instance

    Two registered users, one post of the first, one post whose author is
    not in table [user], and stand-ins for the two [werkzeug.security]
    functions; used to run the statements below on concrete input. *)
Module Sample.
Definition hash (password : string) : string := "h:" +:+ password.
Definition check (pwhash password : string) : bool :=
  bool_decide (pwhash = hash password).

Definition alice : User.row := User.Row 1 "alice" (hash "pw1").
Definition bob : User.row := User.Row 2 "bob" (hash "pw2").
Definition first_post : Post.row := Post.Row 1 "T" "B" 100 1.
Definition orphan_post : Post.row := Post.Row 2 "lost" "" 200 7.

Definition store : database := Database [alice; bob] [first_post].
Definition store_with_orphan : database :=
  Database [alice; bob] [first_post; orphan_post].

Definition anonymous : state := State store ∅ [] None.
Definition as_user (u : User.row) : state :=
  State store {["user_id" := User.id u]} [] (Some u).

Definition post_form (fields : list (string * string)) : request :=
  Request POST (list_to_map fields).
End Sample.

(** ** A run through the views

    Register, log in, create, update; a delete by another user is refused;
    a delete by the author succeeds, after which the post is gone. *)
Module Scenario.
Definition serve (now : Z) (r : route) (req : request) (s : state)
  : result response * state :=
  handle_request Sample.hash Sample.check now r req s.

Definition empty : state := State (Database [] []) ∅ [] None.

Definition credentials (name pw : string) : request :=
  Sample.post_form [("username", name); ("password", pw)].

Definition registered : state :=
  (serve 2 route_register (credentials "bob" "pw2")
     (serve 1 route_register (credentials "alice" "pw1") empty).2).2.

Definition alice_in : state :=
  (serve 3 route_login (credentials "alice" "pw1") registered).2.

Definition posted : state :=
  (serve 4 route_create
     (Sample.post_form [("title", "T"); ("body", "B")]) alice_in).2.

Definition updated : state :=
  (serve 5 (route_update 1)
     (Sample.post_form [("title", "T2"); ("body", "B2")]) posted).2.

Definition bob_in : state :=
  (serve 6 route_login (credentials "bob" "pw2") updated).2.
End Scenario.

(** ** [flaskr/db.py]: the connection of a request

    Connections are objects on a heap, named by handles; [g.db] holds the
    handle of the request's connection, once [get_db] has opened it. *)
Module Connection.
Inductive row_factory := tuple_rows | sqlite3_Row.

Record connection := Conn {
  database : string;
  factory : row_factory;
  closed : bool }.

Record state := State {
  config : gmap string string;
  heap : gmap nat connection;
  g_db : option nat }.

(** [sqlite3.connect(database)]: a new open connection, under a handle that
    names no other object. *)
Definition connect (path : string) (s : state) : nat * state :=
  let h := fresh (dom (heap s)) in
  (h, State (config s) (<[h := Conn path tuple_rows false]> (heap s))
            (g_db s)).

(** [g.db.row_factory = sqlite3.Row] *)
Definition set_row_factory (h : nat) (f : row_factory) (s : state) : state :=
  State (config s)
        (alter (λ c, Conn (database c) f (closed c)) h (heap s)) (g_db s).

(** [get_db]; [None] is the [KeyError] of [config['DATABASE']]. *)
Definition get_db (s : state) : option nat * state :=
  match g_db s with
  | Some h => (Some h, s)
  | None =>
      match config s !! "DATABASE" with
      | None => (None, s)
      | Some path =>
          let (h, s1) := connect path s in
          let s2 := State (config s1) (heap s1) (Some h) in
          let s3 := set_row_factory h sqlite3_Row s2 in
          (g_db s3, s3)
      end
  end.

(** [close_db]: [g.pop('db', None)], then [db.close()] if there was one. *)
Definition close_db (s : state) : state :=
  match g_db s with
  | Some h =>
      State (config s)
            (alter (λ c, Conn (database c) (factory c) true) h (heap s)) None
  | None => State (config s) (heap s) None
  end.

(** A request that calls [get_db] [n] times and is then torn down. *)
Definition request_with_gets (n : nat) (s : state) : state :=
  close_db (Nat.iter n (λ s, (get_db s).2) s).

(** No connection is left open and [g] holds none. *)
Definition quiescent (s : state) : Prop :=
  g_db s = None ∧ ∀ h c, heap s !! h = Some c → closed c = true.
(** Every open connection is the one [g.db] names. *)
Definition open_is_g_db (s : state) : Prop :=
  ∀ h c, heap s !! h = Some c → closed c = false → g_db s = Some h.

(** The connections of [s0] are in [s] as they were, and none is [g.db]. *)
Definition keeps (s0 s : state) : Prop :=
  ∀ h c, heap s0 !! h = Some c → heap s !! h = Some c ∧ g_db s ≠ Some h.

End Connection.

(** ** [app.py]: the directory listing *)
Module Explorer.
Section explore.
(** [os.listdir] ([None] is its [OSError]) and [os.path.isdir]. *)
Variable listdir : string → option (list string).
Variable isdir : string → bool.

(** What [render_template('index.html.jinja', ...)] is handed. *)
Record listing := Listing {
  files : list string;
  directories : list string }.

(** One turn of the [for item in dir_list] loop, on
    [(directory_list, file_list)]. *)
Definition sort_item (acc : list string * list string) (item : string)
  : list string * list string :=
  if isdir item then (acc.1 ++ [item], acc.2)
  else (acc.1, acc.2 ++ [item]).

(** [explore]: the lines printed, and the listing or [None] when
    [os.listdir] raises. *)
Definition explore (args : gmap string string)
  : list string * option listing :=
  let path := default "." (args !! "path") in
  let out1 := ["getting results for path: " +:+ path] in
  match listdir path with
  | None => (out1, None)
  | Some dir_list =>
      let out2 := out1 ++ ["iterating through items in " +:+ path] in
      let '(directory_list, file_list) := foldl sort_item ([], []) dir_list in
      (out2, Some (Listing file_list directory_list))
  end.
End explore.
End Explorer.

(** A directory with one sub-directory, for the statements on [explore]. *)
Module SampleDir.
Definition listdir (path : string) : option (list string) :=
  if decide (path = ".") then Some ["app.py"; "flaskr"; "README.md"]
  else None.
Definition isdir (item : string) : bool := bool_decide (item = "flaskr").
End SampleDir.

(** ** What one request can do to the store

    The five ways in which the views write: none, the insert of [register],
    and the insert, update and delete of the blog views, each under the
    conditions the view checks first. [who] is [g.user] as the
    [before_app_request] hook leaves it. *)
Inductive db_step (who : option User.row) (now : Z) (d : database)
  : database → Prop :=
  | step_read : db_step who now d d
  | step_register name hash d' :
      name ≠ "" → insert_user d name hash = Some d' → db_step who now d d'
  | step_create u t b :
      who = Some u → t ≠ "" →
      db_step who now d (insert_post d now t b (User.id u))
  | step_update u r t b pid :
      who = Some u → select_post_by_id d pid = Some r →
      Joined.author_id r = User.id u → t ≠ "" →
      db_step who now d (update_post d t b pid)
  | step_delete u r pid :
      who = Some u → select_post_by_id d pid = Some r →
      Joined.author_id r = User.id u →
      db_step who now d (delete_post d pid).

(** [g.user] as the hook leaves it for the view. *)
Definition resolved_user (s : state) : option User.row :=
  g_user (load_logged_in_user s).2.

(** Unfolds the primitive operations of the monad, so that a view applied
    to a state reduces to its case analysis. *)
Ltac run_view :=
  unfold bind, ret, raise, abort, get_state, set_db, set_g_user, flash,
    form_get, session_clear, session_set, g_user_id; simpl.

(** Unfolds the views down to the primitive operations and splits on every
    test they make. *)
Ltac unfold_views :=
  unfold handle_request, dispatch, load_logged_in_user, register, login,
    logout, index, create, Url.update, update_view, Url.delete, delete_view,
    login_required, get_post, bind_integer.

Ltac split_views :=
  unfold_views; run_view;
  repeat (case_match; simpl in *; simplify_eq; run_view).

(** * Properties *)

(** ** Queries over tables with unique keys *)

Lemma filter_none {A} (P : A → Prop) `{!∀ y, Decision (P y)} (l : list A) :
  (∀ y, y ∈ l → ¬ P y) → filter P l = [].
Proof.
  induction l as [|y l IH]; intros Hl; [done|].
  rewrite filter_cons_False by (apply Hl; left).
  apply IH. intros z Hz. apply Hl. by right.
Qed.

Lemma filter_all {A} (P : A → Prop) `{!∀ y, Decision (P y)} (l : list A) :
  (∀ y, y ∈ l → P y) → filter P l = l.
Proof.
  induction l as [|y l IH]; intros Hl; [done|].
  rewrite filter_cons_True by (apply Hl; left).
  f_equal. apply IH. intros z Hz. apply Hl. by right.
Qed.

Section unique_key.
Context {A B : Type} (f : A → B).

(** In a list whose keys are pairwise distinct, the rows selected by a
    condition equivalent to "has the key of [x]" are exactly [x]. *)
Lemma filter_unique_key (P : A → Prop) `{!∀ y, Decision (P y)} l x :
  NoDup (f <$> l) → x ∈ l → (∀ y, P y ↔ f y = f x) → filter P l = [x].
Proof.
  intros Hnd Hx HP. induction l as [|y l IH]; [by apply elem_of_nil in Hx|].
  rewrite fmap_cons in Hnd. apply NoDup_cons in Hnd as [Hy Hnd].
  apply elem_of_cons in Hx as [->|Hx].
  - rewrite filter_cons_True by by apply HP. f_equal.
    apply filter_none. intros z Hz HPz.
    apply HP in HPz. apply Hy. rewrite <- HPz. by apply list_elem_of_fmap_2.
  - rewrite filter_cons_False; [by apply IH|].
    intros HPy. apply HP in HPy. apply Hy. rewrite HPy.
    by apply list_elem_of_fmap_2.
Qed.

(** No row is selected when the key is not in the table. *)
Lemma filter_absent_key (P : A → Prop) `{!∀ y, Decision (P y)} l k :
  k ∉ f <$> l → (∀ y, P y → f y = k) → filter P l = [].
Proof.
  intros Hk HP. apply filter_none. intros y Hy HPy.
  apply Hk. rewrite <- (HP y HPy). by apply list_elem_of_fmap_2.
Qed.
End unique_key.

Lemma select_user_by_id_Some d u :
  wf_database d → u ∈ users d → select_user_by_id d (User.id u) = Some u.
Proof.
  intros [Hids _ _ _] Hu. unfold select_user_by_id.
  by rewrite (filter_unique_key User.id _ _ u).
Qed.

Lemma select_user_by_id_None d uid :
  uid ∉ User.id <$> users d → select_user_by_id d uid = None.
Proof.
  intros Hu. unfold select_user_by_id.
  by rewrite (filter_absent_key User.id _ _ uid).
Qed.

Lemma select_user_by_username_Some d u :
  wf_database d → u ∈ users d →
  select_user_by_username d (User.username u) = Some u.
Proof.
  intros [_ Hnames _ _] Hu. unfold select_user_by_username.
  by rewrite (filter_unique_key User.username _ _ u).
Qed.

Lemma select_user_by_username_None d name :
  name ∉ User.username <$> users d → select_user_by_username d name = None.
Proof.
  intros Hu. unfold select_user_by_username.
  by rewrite (filter_absent_key User.username _ _ name).
Qed.

(** ** The join of [post] with [user] *)

Lemma authors_of_id us p r : r ∈ authors_of us p → Joined.id r = Post.id p.
Proof.
  unfold authors_of. intros (u & -> & _)%list_elem_of_fmap_1. done.
Qed.

Lemma filter_join_absent us ps pid :
  pid ∉ Post.id <$> ps →
  filter (λ r, Joined.id r = pid) (ps ≫= authors_of us) = [].
Proof.
  intros Hpid. apply filter_none. intros r Hr Hid.
  apply list_elem_of_bind in Hr as (p & Hr & Hp).
  apply authors_of_id in Hr. apply Hpid.
  rewrite <- Hid, Hr. by apply list_elem_of_fmap_2.
Qed.

Lemma filter_join_present us ps p :
  NoDup (Post.id <$> ps) → p ∈ ps →
  filter (λ r, Joined.id r = Post.id p) (ps ≫= authors_of us)
  = authors_of us p.
Proof.
  intros Hnd Hp. induction ps as [|q ps IH]; [by apply elem_of_nil in Hp|].
  rewrite fmap_cons in Hnd. apply NoDup_cons in Hnd as [Hq Hnd].
  rewrite bind_cons, filter_app.
  apply elem_of_cons in Hp as [->|Hp].
  - rewrite (filter_join_absent us ps (Post.id q)) by done.
    rewrite app_nil_r. apply filter_all, authors_of_id.
  - rewrite (filter_none _ (authors_of us q)); [by apply IH|].
    intros r Hr Hid. apply authors_of_id in Hr. apply Hq.
    rewrite <- Hr, Hid. by apply list_elem_of_fmap_2.
Qed.

Lemma select_post_by_id_Some d p a :
  wf_database d → p ∈ posts d → a ∈ users d →
  Post.author_id p = User.id a →
  select_post_by_id d (Post.id p) = Some (join_row p a).
Proof.
  intros [Hids _ _ Hpids] Hp Ha Hauth. unfold select_post_by_id.
  unfold post_join_user. rewrite filter_join_present by done.
  unfold authors_of.
  rewrite (filter_unique_key User.id _ _ a) by (done || by split; congruence).
  done.
Qed.

Lemma select_post_by_id_absent d pid :
  pid ∉ Post.id <$> posts d → select_post_by_id d pid = None.
Proof.
  intros Hpid. unfold select_post_by_id.
  unfold post_join_user. by rewrite filter_join_absent.
Qed.

Lemma select_post_by_id_orphan d p :
  wf_database d → p ∈ posts d → Post.author_id p ∉ User.id <$> users d →
  select_post_by_id d (Post.id p) = None.
Proof.
  intros [_ _ _ Hpids] Hp Hauth. unfold select_post_by_id.
  unfold post_join_user. rewrite filter_join_present by done.
  unfold authors_of.
  by rewrite (filter_absent_key User.id _ _ (Post.author_id p)).
Qed.

(** ** The monad, step by step *)

Lemma bind_Ok {A B} (m : M A) (k : A → M B) s a s' :
  m s = (Ok a, s') → bind m k s = k a s'.
Proof. unfold bind. by intros ->. Qed.

Lemma bind_Raise {A B} (m : M A) (k : A → M B) s e s' :
  m s = (Raise e, s') → bind m k s = (Raise e, s').
Proof. unfold bind. by intros ->. Qed.

Lemma state_eta s : State (db s) (session s) (flashes s) (g_user s) = s.
Proof. by destruct s. Qed.

(** ** The session identity resolver *)

Lemma load_logged_in_user_absent s :
  session s !! "user_id" = None →
  load_logged_in_user s = (Ok tt, State (db s) (session s) (flashes s) None).
Proof. intros H. unfold load_logged_in_user, bind, get_state. by rewrite H. Qed.

Lemma load_logged_in_user_present s uid :
  session s !! "user_id" = Some uid →
  load_logged_in_user s
  = (Ok tt, State (db s) (session s) (flashes s)
                  (select_user_by_id (db s) uid)).
Proof. intros H. unfold load_logged_in_user, bind, get_state. by rewrite H. Qed.

(** C8. A session without [user_id], or with a [user_id] that is the id of
    no row of [user], resolves to [g.user = None]; the hook returns
    normally, touches nothing else, and the view is dispatched from that
    state. *)
Theorem stale_session_is_anonymous gph cph now (s : state) :
  (session s !! "user_id" = None
   ∨ ∃ uid, session s !! "user_id" = Some uid
            ∧ uid ∉ User.id <$> users (db s)) →
  load_logged_in_user s = (Ok tt, State (db s) (session s) (flashes s) None)
  ∧ ∀ r req, handle_request gph cph now r req s
             = dispatch gph cph now r req
                 (State (db s) (session s) (flashes s) None).
Proof.
  intros Hs.
  assert (Hload : load_logged_in_user s
                  = (Ok tt, State (db s) (session s) (flashes s) None)).
  { destruct Hs as [Hnone|(uid & Hsome & Hstale)].
    - by apply load_logged_in_user_absent.
    - rewrite (load_logged_in_user_present s uid) by done.
      by rewrite select_user_by_id_None. }
  split; [done|]. intros r req. unfold handle_request.
  by rewrite (bind_Ok _ _ _ _ _ Hload).
Qed.

Lemma stale_session_is_anonymous_witness :
  let s := State Sample.store {["user_id" := 9%Z]} [] (Some Sample.bob) in
  load_logged_in_user s = (Ok tt, State Sample.store {["user_id" := 9%Z]} [] None).
Proof.
  intros s.
  apply (stale_session_is_anonymous Sample.hash Sample.check 0 s).
  right. exists 9%Z. split; [reflexivity|]. compute_done.
Defined.

(** ** The auth gate *)

Lemma login_success cph (s : state) req u pw :
  wf_database (db s) → u ∈ users (db s) →
  method req = POST →
  form req !! "username" = Some (User.username u) →
  form req !! "password" = Some pw →
  cph (User.password u) pw = true →
  login cph req s
  = (Ok (redirect (url_for index_endpoint)),
     State (db s) {["user_id" := User.id u]} [] (g_user s)).
Proof.
  intros Hwf Hu Hm Hname Hpw Hcheck. unfold login. rewrite Hm. run_view.
  rewrite Hname, Hpw. simpl.
  rewrite select_user_by_username_Some by done. rewrite Hcheck. simpl.
  by rewrite insert_empty.
Qed.

Lemma logout_clears s :
  logout s = (Ok (redirect (url_for index_endpoint)),
              State (db s) ∅ [] (g_user s)).
Proof. done. Qed.

(** C2. From any state, whatever its session holds: a login of a stored
    user [u] with a password that verifies leaves a session from which the
    resolver loads that very row [u] into [g.user]; and a logout leaves a
    session from which the resolver sets [g.user] to [None]. *)
Theorem session_state_machine cph :
  (∀ (s : state) req u pw,
      wf_database (db s) → u ∈ users (db s) →
      method req = POST →
      form req !! "username" = Some (User.username u) →
      form req !! "password" = Some pw →
      cph (User.password u) pw = true →
      ∃ s1, login cph req s = (Ok (redirect (url_for index_endpoint)), s1)
            ∧ load_logged_in_user s1
              = (Ok tt, State (db s) (session s1) (flashes s1) (Some u)))
  ∧ (∀ s : state,
      ∃ s1, logout s = (Ok (redirect (url_for index_endpoint)), s1)
            ∧ load_logged_in_user s1
              = (Ok tt, State (db s) (session s1) (flashes s1) None)).
Proof.
  split.
  - intros s req u pw Hwf Hu Hm Hname Hpw Hcheck.
    eexists. split; [by eapply login_success|].
    rewrite (load_logged_in_user_present _ (User.id u))
      by apply lookup_singleton_eq.
    simpl. by rewrite select_user_by_id_Some.
  - intros s. eexists. split; [apply logout_clears|].
    by rewrite load_logged_in_user_absent.
Qed.

Lemma sample_store_wf : wf_database Sample.store.
Proof. split; compute_done. Defined.

Lemma session_state_machine_witness :
  ∃ s1, login Sample.check
          (Sample.post_form [("username", "alice"); ("password", "pw1")])
          (Sample.as_user Sample.bob)
        = (Ok (redirect "/"), s1)
        ∧ load_logged_in_user s1
          = (Ok tt, State Sample.store (session s1) (flashes s1)
                          (Some Sample.alice)).
Proof.
  apply (proj1 (session_state_machine Sample.check)
           (Sample.as_user Sample.bob)
           (Sample.post_form [("username", "alice"); ("password", "pw1")])
           Sample.alice "pw1").
  - exact sample_store_wf.
  - compute_done.
  - reflexivity.
  - reflexivity.
  - reflexivity.
  - reflexivity.
Defined.

(** C4. A login with a user name that no row carries, or with a password
    that does not verify against the stored hash of the row that carries
    it, ends the same way in both cases: the login form is rendered again,
    the one message "incorrect username or password" is flashed, and the
    session, the store and [g.user] are as before. *)
Theorem login_failure_is_generic cph (s : state) req name pw :
  wf_database (db s) →
  method req = POST →
  form req !! "username" = Some name →
  form req !! "password" = Some pw →
  (name ∉ User.username <$> users (db s)
   ∨ ∃ u, u ∈ users (db s) ∧ User.username u = name
          ∧ cph (User.password u) pw = false) →
  login cph req s
  = (Ok (render_template "auth/login.html" no_context),
     State (db s) (session s)
           (flashes s ++ ["incorrect username or password"]) (g_user s)).
Proof.
  intros Hwf Hm Hname Hpw Hfail. unfold login. rewrite Hm. run_view.
  rewrite Hname, Hpw. simpl.
  destruct Hfail as [Habsent|(u & Hu & <- & Hcheck)].
  - by rewrite select_user_by_username_None.
  - rewrite select_user_by_username_Some by done. by rewrite Hcheck.
Qed.

Lemma login_failure_is_generic_witness :
  login Sample.check
    (Sample.post_form [("username", "carol"); ("password", "pw1")])
    (Sample.as_user Sample.bob)
  = login Sample.check
      (Sample.post_form [("username", "alice"); ("password", "wrong")])
      (Sample.as_user Sample.bob).
Proof.
  rewrite (login_failure_is_generic Sample.check (Sample.as_user Sample.bob)
             (Sample.post_form [("username", "carol"); ("password", "pw1")])
             "carol" "pw1");
    [|exact sample_store_wf|reflexivity|reflexivity|reflexivity
     |left; compute_done].
  rewrite (login_failure_is_generic Sample.check (Sample.as_user Sample.bob)
             (Sample.post_form [("username", "alice"); ("password", "wrong")])
             "alice" "wrong");
    [|exact sample_store_wf|reflexivity|reflexivity|reflexivity
     |right; exists Sample.alice; repeat split; compute_done].
  reflexivity.
Defined.

(** The message of the [except db.IntegrityError] branch of [register]. *)
Lemma register_conflict gph (s : state) req name pw :
  name ∈ User.username <$> users (db s) →
  method req = POST →
  form req !! "username" = Some name →
  form req !! "password" = Some pw →
  name ≠ "" → pw ≠ "" →
  register gph req s
  = (Ok (render_template "auth/register.html" no_context),
     State (db s) (session s)
           (flashes s ++ ["user " +:+ name +:+ " is already registered"])
           (g_user s)).
Proof.
  intros Hin Hm Hname Hpw Hn0 Hp0. unfold register. rewrite Hm. run_view.
  rewrite Hname, Hpw. simpl.
  rewrite !decide_False by done. unfold insert_user.
  by rewrite decide_True.
Qed.

(** C5, as stated, fails: with a stored user name and the empty password
    the form is refused with "password not provided", not with the conflict
    message. *)
Lemma register_conflict_any_password_fails :
  ¬ (∀ gph (s : state) req name pw,
       wf_database (db s) →
       name ∈ User.username <$> users (db s) →
       method req = POST →
       form req !! "username" = Some name →
       form req !! "password" = Some pw →
       register gph req s
       = (Ok (render_template "auth/register.html" no_context),
          State (db s) (session s)
                (flashes s ++ ["user " +:+ name +:+ " is already registered"])
                (g_user s))).
Proof.
  intros Hall.
  specialize (Hall Sample.hash Sample.anonymous
                (Sample.post_form [("username", "alice"); ("password", "")])
                "alice" "" sample_store_wf).
  assert (Hflash :
    flashes (snd (register Sample.hash
                    (Sample.post_form [("username", "alice"); ("password", "")])
                    Sample.anonymous))
    = ["password not provided"]) by reflexivity.
  rewrite Hall in Hflash; [discriminate|compute_done|done..].
Qed.

(** C5, amended. For a user name already stored and a password that is not
    empty, [register] renders the form again with the flashed message
    "user {U} is already registered"; no exception leaves the view, and the
    store (so no second row named [U]), the session and [g.user] are as
    before. *)
Theorem register_existing_username gph (s : state) req name pw :
  wf_database (db s) →
  name ∈ User.username <$> users (db s) →
  method req = POST →
  form req !! "username" = Some name →
  form req !! "password" = Some pw →
  pw ≠ "" →
  register gph req s
  = (Ok (render_template "auth/register.html" no_context),
     State (db s) (session s)
           (flashes s ++ ["user " +:+ name +:+ " is already registered"])
           (g_user s)).
Proof.
  intros Hwf Hin Hm Hname Hpw Hp0.
  apply (register_conflict gph s req name pw); try done.
  intros ->. by apply (wf_usernames_nonempty _ Hwf).
Qed.

Lemma register_existing_username_witness :
  register Sample.hash
    (Sample.post_form [("username", "alice"); ("password", "pw9")])
    Sample.anonymous
  = (Ok (render_template "auth/register.html" no_context),
     State Sample.store ∅ ["user alice is already registered"] None).
Proof.
  apply (register_existing_username Sample.hash Sample.anonymous
           (Sample.post_form [("username", "alice"); ("password", "pw9")])
           "alice" "pw9").
  - exact sample_store_wf.
  - compute_done.
  - reflexivity.
  - reflexivity.
  - reflexivity.
  - discriminate.
Defined.

(** ** The post repository *)

Lemma get_post_found (s : state) id r :
  select_post_by_id (db s) id = Some r →
  get_post id true s
  = match g_user s with
    | None => (Raise TypeError, s)
    | Some u => if decide (Joined.author_id r ≠ User.id u)
                then (Raise (HTTPException 403 None), s)
                else (Ok r, s)
    end.
Proof.
  intros Hsel. unfold get_post. run_view. rewrite Hsel.
  run_view. destruct (g_user s) as [u|]; [|done]. by case_decide.
Qed.

Lemma get_post_missing (s : state) id check_author :
  select_post_by_id (db s) id = None →
  get_post id check_author s
  = (Raise (HTTPException 404
              (Some ("post id " +:+ pretty id +:+ " does not exist"))), s).
Proof. intros Hsel. unfold get_post. run_view. by rewrite Hsel. Qed.

(** C3. For two distinct rows [a] and [b] of [user] and a stored post whose
    [author_id] is the id of [a]: [get_post] with [check_author] set aborts
    with 403 when [g.user] is [b], and returns the post (joined with the
    name of [a]) when [g.user] is [a]; the state is untouched either way. *)
Theorem ownership_isolation d sess fl a b p :
  wf_database d →
  a ∈ users d → b ∈ users d → a ≠ b →
  p ∈ posts d → Post.author_id p = User.id a →
  get_post (Post.id p) true (State d sess fl (Some b))
  = (Raise (HTTPException 403 None), State d sess fl (Some b))
  ∧ get_post (Post.id p) true (State d sess fl (Some a))
    = (Ok (join_row p a), State d sess fl (Some a)).
Proof.
  intros Hwf Ha Hb Hab Hp Hauth.
  pose proof (select_post_by_id_Some d p a Hwf Hp Ha Hauth) as Hsel.
  split.
  - rewrite (get_post_found _ _ (join_row p a)) by done. simpl.
    rewrite decide_True; [done|]. rewrite Hauth. intros Hid.
    pose proof (select_user_by_id_Some d a Hwf Ha) as Hsel_a.
    pose proof (select_user_by_id_Some d b Hwf Hb) as Hsel_b.
    rewrite Hid in Hsel_a. congruence.
  - rewrite (get_post_found _ _ (join_row p a)) by done. simpl.
    rewrite decide_False; [done|]. intros Hne. by apply Hne.
Qed.

Lemma ownership_isolation_witness :
  get_post 1 true (State Sample.store ∅ [] (Some Sample.bob))
  = (Raise (HTTPException 403 None), State Sample.store ∅ [] (Some Sample.bob))
  ∧ get_post 1 true (State Sample.store ∅ [] (Some Sample.alice))
    = (Ok (Joined.Row 1 "T" "B" 100 1 "alice"),
       State Sample.store ∅ [] (Some Sample.alice)).
Proof.
  apply (ownership_isolation Sample.store ∅ [] Sample.alice Sample.bob
           Sample.first_post).
  - exact sample_store_wf.
  - compute_done.
  - compute_done.
  - discriminate.
  - compute_done.
  - reflexivity.
Defined.

Lemma bind_integer_fits n (s : state) :
  sqlite_integer n → bind_integer n s = (Ok n, s).
Proof. intros Hn. unfold bind_integer. by rewrite decide_True. Qed.

Lemma bind_integer_overflows n (s : state) :
  ¬ sqlite_integer n → bind_integer n s = (Raise OverflowError, s).
Proof. intros Hn. unfold bind_integer. by rewrite decide_False. Qed.

(** An id of the URL that does not fit 64 bits never reaches the lookup:
    [get_post] raises [OverflowError] where it binds the id, and so does
    [delete] for a logged-in caller. *)
Lemma overflow_before_lookup (s : state) id :
  ¬ sqlite_integer id →
  (∀ check_author,
      Url.get_post id check_author s = (Raise OverflowError, s))
  ∧ (∀ u, g_user s = Some u → Url.delete id s = (Raise OverflowError, s)).
Proof.
  intros Hid. split.
  - intros check_author. unfold Url.get_post.
    by rewrite (bind_Raise _ _ _ _ _ (bind_integer_overflows id s Hid)).
  - intros u Hu. unfold Url.delete, login_required.
    unfold bind at 1. unfold get_state at 1. rewrite Hu.
    by rewrite (bind_Raise _ _ _ _ _ (bind_integer_overflows id s Hid)).
Qed.

(** C6, as stated, fails: the id [2^63] is the id of no post, and for a
    logged-in caller neither [get_post] nor [delete] answers 404; the bind
    of the id raises [OverflowError] first. *)
Lemma not_found_for_every_id_fails :
  ¬ (∀ (s : state) id u,
       id ∉ Post.id <$> posts (db s) →
       g_user s = Some u →
       Url.get_post id true s
       = (Raise (HTTPException 404
                   (Some ("post id " +:+ pretty id +:+ " does not exist"))),
          s)
       ∧ Url.delete id s
         = (Raise (HTTPException 404
                     (Some ("post id " +:+ pretty id +:+ " does not exist"))),
            s)).
Proof.
  intros Hall.
  destruct (Hall (Sample.as_user Sample.alice) (2 ^ 63)%Z Sample.alice)
    as [Hget _]; [compute_done|reflexivity|].
  assert (Hnot : ¬ sqlite_integer (2 ^ 63)) by (unfold sqlite_integer; lia).
  rewrite (proj1 (overflow_before_lookup _ _ Hnot) true) in Hget.
  discriminate.
Qed.

(** C6, amended. For an id that fits a SQLite INTEGER and that no row of
    [post] carries, [get_post] aborts with 404 from every state, whatever
    [g.user] is (even [None], where a comparison with the author would
    have raised), so the outcome is fixed before the caller is looked at;
    [delete] under a loaded user aborts the same way and leaves the state
    as it was. *)
Theorem not_found_in_sqlite_range (s : state) id :
  sqlite_integer id →
  id ∉ Post.id <$> posts (db s) →
  (∀ check_author,
      Url.get_post id check_author s
      = (Raise (HTTPException 404
                  (Some ("post id " +:+ pretty id +:+ " does not exist"))),
         s))
  ∧ (∀ u, g_user s = Some u →
          Url.delete id s
          = (Raise (HTTPException 404
                      (Some ("post id " +:+ pretty id +:+ " does not exist"))),
             s)).
Proof.
  intros Hfits Hid.
  pose proof (bind_integer_fits id s Hfits) as Hbind.
  pose proof (select_post_by_id_absent (db s) id Hid) as Hsel.
  split.
  - intros check_author. unfold Url.get_post.
    rewrite (bind_Ok _ _ _ _ _ Hbind). by apply get_post_missing.
  - intros u Hu. unfold Url.delete, login_required.
    unfold bind at 1. unfold get_state at 1. rewrite Hu.
    rewrite (bind_Ok _ _ _ _ _ Hbind). unfold delete_view.
    by rewrite (bind_Raise _ _ _ _ _ (get_post_missing s id true Hsel)).
Qed.

Lemma not_found_in_sqlite_range_witness :
  Url.delete 5 (Sample.as_user Sample.bob)
  = (Raise (HTTPException 404 (Some "post id 5 does not exist")),
     Sample.as_user Sample.bob).
Proof.
  apply (proj2 (not_found_in_sqlite_range (Sample.as_user Sample.bob) 5
                  ltac:(unfold sqlite_integer; lia) ltac:(compute_done))
           Sample.bob).
  reflexivity.
Defined.

Lemma update_post_lookup d t b pid i :
  posts (update_post d t b pid) !! i
  = (λ p, if decide (Post.id p = pid) then set_title_body t b p else p)
      <$> posts d !! i.
Proof. unfold update_post. simpl. apply list_lookup_fmap. Qed.

(** C7. An update of a stored post by its author with a title that is not
    empty succeeds, and of the whole state only [title] and [body] of the
    rows of [post] with that id change: table [user], the session, the
    flashed messages and [g.user] are as before, [post] has the same rows
    at the same places, each with its [id], [author_id] and [created]
    unchanged, and every row with another id is unchanged as a whole. *)
Theorem update_frame (s : state) req id t b u p :
  wf_database (db s) →
  g_user s = Some u → u ∈ users (db s) →
  p ∈ posts (db s) → Post.id p = id → Post.author_id p = User.id u →
  method req = POST →
  form req !! "title" = Some t → form req !! "body" = Some b → t ≠ "" →
  ∃ d',
    update req id s
    = (Ok (redirect (url_for blog_index)),
       State d' (session s) (flashes s) (g_user s))
    ∧ users d' = users (db s)
    ∧ length (posts d') = length (posts (db s))
    ∧ ∀ i q, posts (db s) !! i = Some q →
        ∃ q', posts d' !! i = Some q'
              ∧ Post.id q' = Post.id q
              ∧ Post.author_id q' = Post.author_id q
              ∧ Post.created q' = Post.created q
              ∧ (Post.id q ≠ id → q' = q)
              ∧ (Post.id q = id → Post.title q' = t ∧ Post.body q' = b).
Proof.
  intros Hwf Hg Hu Hp Hid Hauth Hm Ht Hb Ht0. subst id.
  exists (update_post (db s) t b (Post.id p)). split; [|split; [|split]].
  - unfold update, login_required, update_view.
    unfold bind at 1. unfold get_state at 1. rewrite Hg.
    assert (Hget : get_post (Post.id p) true s = (Ok (join_row p u), s)).
    { rewrite (get_post_found s _ (join_row p u))
        by by apply select_post_by_id_Some.
      rewrite Hg. rewrite decide_False; [done|]. simpl. intros Hne.
      by apply Hne. }
    rewrite (bind_Ok _ _ _ _ _ Hget). rewrite Hm. run_view.
    rewrite Ht, Hb. simpl. rewrite decide_False by done. by rewrite Hg.
  - done.
  - unfold update_post. simpl. by rewrite length_fmap.
  - intros i q Hq. rewrite update_post_lookup, Hq. simpl.
    eexists. split; [done|]. case_decide; simpl; repeat split; by try done.
Qed.

Lemma update_frame_witness :
  ∃ d',
    update (Sample.post_form [("title", "T2"); ("body", "B2")]) 1
           (Sample.as_user Sample.alice)
    = (Ok (redirect "/"),
       State d' {["user_id" := 1%Z]} [] (Some Sample.alice))
    ∧ users d' = [Sample.alice; Sample.bob].
Proof.
  destruct (update_frame (Sample.as_user Sample.alice)
              (Sample.post_form [("title", "T2"); ("body", "B2")]) 1
              "T2" "B2" Sample.alice Sample.first_post)
    as (d' & Hrun & Husers & _).
  - exact sample_store_wf.
  - reflexivity.
  - compute_done.
  - compute_done.
  - reflexivity.
  - reflexivity.
  - reflexivity.
  - reflexivity.
  - reflexivity.
  - discriminate.
  - exists d'. split; [exact Hrun|exact Husers].
Defined.

(** C9, as stated, fails: an anonymous POST that carries a title that is
    not empty and no [body] field is refused with 400 where the view reads
    the form, before [g.user] is dereferenced; no [TypeError] is raised. *)
Lemma anonymous_create_without_body_fails :
  ¬ (∀ now (s : state) req t,
       g_user s = None →
       method req = POST →
       form req !! "title" = Some t → t ≠ "" →
       ∃ s', create now req s = (Raise TypeError, s') ∧ db s' = db s).
Proof.
  intros Hall.
  destruct (Hall 300%Z Sample.anonymous (Sample.post_form [("title", "T")])
              "T" eq_refl eq_refl eq_refl ltac:(discriminate))
    as (s' & Hrun & _).
  assert (Hbad : create 300 (Sample.post_form [("title", "T")])
                        Sample.anonymous
                 = (Raise (HTTPException 400 None), Sample.anonymous))
    by reflexivity.
  rewrite Hbad in Hrun. discriminate.
Qed.

(** C9, amended. With [g.user = None], [create] never changes the store and
    never answers with the redirect to the login page; and on a POST that
    carries a title that is not empty and a [body] field, it raises
    [TypeError] at [g.user['id']], before the insert, leaving the whole
    state as it was. *)
Theorem anonymous_create_never_inserts now (s : state) req :
  g_user s = None →
  (db (create now req s).2 = db s
   ∧ (create now req s).1 ≠ Ok (redirect (url_for auth_login)))
  ∧ (∀ t b, method req = POST →
            form req !! "title" = Some t → t ≠ "" →
            form req !! "body" = Some b →
            create now req s = (Raise TypeError, s)).
Proof.
  intros Hg. split.
  - unfold create. destruct (method req); [done|]. run_view.
    destruct (form req !! "title") as [t|]; [|done]. simpl.
    destruct (form req !! "body") as [b|]; [|done]. simpl.
    case_decide; [done|]. run_view. by rewrite Hg.
  - intros t b Hm Ht Ht0 Hb. unfold create. rewrite Hm. run_view.
    rewrite Ht, Hb. simpl. rewrite decide_False by done. run_view.
    by rewrite Hg.
Qed.

Lemma anonymous_create_never_inserts_witness :
  create 300 (Sample.post_form [("title", "T"); ("body", "B")])
         Sample.anonymous
  = (Raise TypeError, Sample.anonymous).
Proof.
  apply (proj2 (anonymous_create_never_inserts 300 Sample.anonymous
                  (Sample.post_form [("title", "T"); ("body", "B")])
                  eq_refl) "T" "B").
  - reflexivity.
  - reflexivity.
  - discriminate.
  - reflexivity.
Defined.

Lemma insert_newest_Permutation r l : insert_newest r l ≡ₚ r :: l.
Proof.
  induction l as [|x l IH]; simpl; [done|].
  case_decide; [done|]. by rewrite IH, Permutation_swap.
Qed.

Lemma sort_newest_Permutation l : foldr insert_newest [] l ≡ₚ l.
Proof.
  induction l as [|r l IH]; simpl; [done|].
  by rewrite insert_newest_Permutation, IH.
Qed.

Lemma insert_newest_sorted r l :
  StronglySorted created_desc l →
  StronglySorted created_desc (insert_newest r l).
Proof.
  induction 1 as [|x l Hl IH Hx]; simpl.
  - by repeat constructor.
  - case_decide as Hrx.
    + constructor; [by constructor|]. constructor; [done|].
      eapply Forall_impl; [exact Hx|]. unfold created_desc in *.
      intros y ?. lia.
    + constructor; [done|]. rewrite insert_newest_Permutation.
      constructor; [|done]. unfold created_desc in *. lia.
Qed.

Lemma sort_newest_sorted l :
  StronglySorted created_desc (foldr insert_newest [] l).
Proof.
  induction l as [|r l IH]; simpl; [constructor|].
  by apply insert_newest_sorted.
Qed.

Lemma index_lists s :
  index s = (Ok (render_template "blog/index.html"
                   (posts_context (select_posts_newest_first (db s)))), s).
Proof. done. Qed.

Lemma elem_of_select_posts_newest_first d r :
  r ∈ select_posts_newest_first d ↔ r ∈ post_join_user d.
Proof.
  unfold select_posts_newest_first. by rewrite sort_newest_Permutation.
Qed.

(** C10. A stored post whose [author_id] is the id of no row of [user] is
    on no row of the listing that [index] renders, and [get_post] of its id
    aborts with 404, with or without the author check and whoever asks. *)
Theorem orphan_post_is_invisible d p :
  wf_database d →
  p ∈ posts d →
  Post.author_id p ∉ User.id <$> users d →
  (∀ sess fl g,
      ∃ rows, index (State d sess fl g)
              = (Ok (render_template "blog/index.html" (posts_context rows)),
                 State d sess fl g)
              ∧ ∀ r, r ∈ rows → Joined.id r ≠ Post.id p)
  ∧ (∀ sess fl g check_author,
        get_post (Post.id p) check_author (State d sess fl g)
        = (Raise (HTTPException 404
                    (Some ("post id " +:+ pretty (Post.id p)
                           +:+ " does not exist"))),
           State d sess fl g)).
Proof.
  intros Hwf Hp Horphan.
  assert (Hnone : filter (λ r, Joined.id r = Post.id p) (post_join_user d)
                  = []).
  { unfold post_join_user.
    rewrite filter_join_present by (done || apply Hwf).
    unfold authors_of.
    by rewrite (filter_absent_key User.id _ _ (Post.author_id p)). }
  split.
  - intros sess fl g. eexists. split; [apply index_lists|].
    simpl. intros r Hr Hid.
    apply elem_of_select_posts_newest_first in Hr.
    assert (Hin : r ∈ filter (λ r, Joined.id r = Post.id p)
                      (post_join_user d))
      by by apply list_elem_of_filter.
    rewrite Hnone in Hin. by apply elem_of_nil in Hin.
  - intros sess fl g check_author. apply get_post_missing. simpl.
    unfold select_post_by_id. by rewrite Hnone.
Qed.

Lemma sample_store_with_orphan_wf : wf_database Sample.store_with_orphan.
Proof. split; compute_done. Defined.

Lemma orphan_post_is_invisible_witness :
  get_post 2 false (State Sample.store_with_orphan ∅ [] None)
  = (Raise (HTTPException 404 (Some "post id 2 does not exist")),
     State Sample.store_with_orphan ∅ [] None).
Proof.
  apply (proj2 (orphan_post_is_invisible Sample.store_with_orphan
                  Sample.orphan_post sample_store_with_orphan_wf
                  ltac:(compute_done) ltac:(compute_done))
           ∅ [] None false).
Defined.

(** C1, on the code. [create] is registered without [login_required]: a
    request to [/create] whose session carries no [user_id] reaches the
    view, and a GET is answered with the form, not with the redirect to the
    login page that [update] and [delete] give in the same state. *)
Theorem create_is_not_guarded gph cph now (s : state) req :
  session s !! "user_id" = None →
  method req = GET →
  handle_request gph cph now route_create req s
  = (Ok (render_template "blog/create.html" no_context),
     State (db s) (session s) (flashes s) None)
  ∧ ∀ id, handle_request gph cph now (route_update id) req s
          = (Ok (redirect (url_for auth_login)),
             State (db s) (session s) (flashes s) None).
Proof.
  intros Hsess Hm.
  pose proof (load_logged_in_user_absent s Hsess) as Hload.
  split; [|intros id]; unfold handle_request;
    rewrite (bind_Ok _ _ _ _ _ Hload); unfold dispatch; rewrite Hm.
  - rewrite decide_True by (simpl; left). unfold create. by rewrite Hm.
  - by rewrite decide_True by (simpl; left).
Qed.

Lemma create_is_not_guarded_witness :
  handle_request Sample.hash Sample.check 300 route_create (Request GET ∅)
                 Sample.anonymous
  = (Ok (render_template "blog/create.html" no_context), Sample.anonymous).
Proof.
  apply (create_is_not_guarded Sample.hash Sample.check 300 Sample.anonymous
           (Request GET ∅)).
  - reflexivity.
  - reflexivity.
Defined.

(** ** The schema constraints are kept by every request *)

Lemma next_rowid_fresh ids : next_rowid ids ∉ ids.
Proof.
  assert (Hmax : ∀ x, x ∈ ids → (x ≤ foldr Z.max 0 ids)%Z).
  { induction ids as [|y ids IH]; intros x Hx; [by apply elem_of_nil in Hx|].
    simpl. apply elem_of_cons in Hx as [->|Hx]; [lia|].
    specialize (IH x Hx). lia. }
  intros Hin. apply Hmax in Hin. unfold next_rowid in Hin. lia.
Qed.

Lemma insert_user_wf d name hash d' :
  wf_database d → name ≠ "" → insert_user d name hash = Some d' →
  wf_database d'.
Proof.
  intros [Hids Hnames Hne Hpids] Hname. unfold insert_user.
  case_decide as Hfresh; [done|]. intros [= <-].
  split; simpl; rewrite ?fmap_app; simpl; try done.
  - apply NoDup_app. split; [done|]. split; [|apply NoDup_singleton].
    intros x Hx ->%list_elem_of_singleton. by apply (next_rowid_fresh _ Hx).
  - apply NoDup_app. split; [done|]. split; [|apply NoDup_singleton].
    by intros x Hx ->%list_elem_of_singleton.
  - rewrite elem_of_app, list_elem_of_singleton. by intros [?|?].
Qed.

Lemma insert_post_wf d now t b author :
  wf_database d → wf_database (insert_post d now t b author).
Proof.
  intros [Hids Hnames Hne Hpids]. split; simpl; try done.
  rewrite fmap_app. simpl.
  apply NoDup_app. split; [done|]. split; [|apply NoDup_singleton].
  intros x Hx ->%list_elem_of_singleton. by apply (next_rowid_fresh _ Hx).
Qed.

Lemma update_post_wf d t b pid :
  wf_database d → wf_database (update_post d t b pid).
Proof.
  intros [Hids Hnames Hne Hpids]. split; simpl; try done.
  rewrite <- list_fmap_compose.
  erewrite list_fmap_ext; [exact Hpids|].
  intros i p _. simpl. by case_decide.
Qed.

Lemma delete_post_wf d pid : wf_database d → wf_database (delete_post d pid).
Proof.
  intros [Hids Hnames Hne Hpids]. split; simpl; try done.
  eapply sublist_NoDup; [exact Hpids|].
  apply fmap_sublist, sublist_filter.
Qed.

#[local] Hint Resolve insert_post_wf update_post_wf delete_post_wf : core.

(** X4. The views keep the constraints of the schema: from a store in
    which the ids of [user], the user names and the ids of [post] are
    pairwise distinct and no user name is empty, every request, on any
    route and with any form, leaves such a store. *)
Lemma handle_request_wf gph cph now r req (s : state) :
  wf_database (db s) →
  wf_database (db (handle_request gph cph now r req s).2).
Proof.
  intros Hwf.
  unfold handle_request, dispatch, load_logged_in_user, register, login,
    logout, index, create, Url.update, update_view, Url.delete, delete_view,
    login_required, get_post, bind_integer.
  run_view.
  repeat (case_match; simpl in *; simplify_eq; run_view; eauto);
    eauto using insert_user_wf.
Qed.

(** ** The run through the views *)

Example scenario_post_after_update :
  posts (db Scenario.updated) = [Post.Row 1 "T2" "B2" 4 1].
Proof. vm_compute. reflexivity. Qed.

Example scenario_delete_by_other_user :
  (Scenario.serve 7 (route_delete 1) (Request POST ∅) Scenario.bob_in).1
  = Raise (HTTPException 403 None).
Proof. vm_compute. reflexivity. Qed.

Example scenario_delete_by_author :
  let s := (Scenario.serve 8 (route_delete 1) (Request POST ∅)
              (State (db Scenario.updated) (session Scenario.alice_in) []
                     None)).2 in
  posts (db s) = []
  ∧ (get_post 1 false s).1
    = Raise (HTTPException 404 (Some "post id 1 does not exist")).
Proof. vm_compute. split; reflexivity. Qed.

(** * Further properties of the views *)

(** ** Registration *)

(** X1. [register] checks the user name first and the password second, and
    shows one message: with an empty user name "username not provided"
    whatever the password is, with an empty password alone "password not
    provided"; the store, the session and [g.user] are as before. *)
Theorem register_validation_order gph (s : state) req name pw :
  method req = POST →
  form req !! "username" = Some name →
  form req !! "password" = Some pw →
  name = "" ∨ pw = "" →
  register gph req s
  = (Ok (render_template "auth/register.html" no_context),
     State (db s) (session s)
           (flashes s ++ [if decide (name = "") then "username not provided"
                          else "password not provided"])
           (g_user s)).
Proof.
  intros Hm Hname Hpw Hempty. unfold register. rewrite Hm. run_view.
  rewrite Hname, Hpw. simpl.
  destruct (decide (name = "")) as [Hn|Hn]; [done|].
  destruct Hempty as [Hn0 | ->]; [done|]. by rewrite decide_True.
Qed.

Lemma register_validation_order_witness :
  register Sample.hash
    (Sample.post_form [("username", ""); ("password", "")]) Sample.anonymous
  = (Ok (render_template "auth/register.html" no_context),
     State Sample.store ∅ ["username not provided"] None).
Proof.
  apply (register_validation_order Sample.hash Sample.anonymous
           (Sample.post_form [("username", ""); ("password", "")]) "" "").
  - reflexivity.
  - reflexivity.
  - reflexivity.
  - by left.
Defined.

Lemma register_fresh gph (s : state) req name pw :
  method req = POST →
  form req !! "username" = Some name →
  form req !! "password" = Some pw →
  name ≠ "" → pw ≠ "" →
  name ∉ User.username <$> users (db s) →
  register gph req s
  = (Ok (redirect (url_for auth_login)),
     State (Database
              (users (db s)
               ++ [User.Row (next_rowid (User.id <$> users (db s)))
                            name (gph pw)])
              (posts (db s)))
           (session s) (flashes s) (g_user s)).
Proof.
  intros Hm Hname Hpw Hn0 Hp0 Hfresh. unfold register. rewrite Hm. run_view.
  rewrite Hname, Hpw. simpl. rewrite !decide_False by done.
  unfold insert_user. by rewrite decide_False by done.
Qed.

(** X2. A registration with a user name that is not empty and not yet
    stored, and a password that is not empty, redirects to the login page
    and appends exactly one row to [user]: it carries that name, the hash
    of the password (never the password itself unless the hash is the
    identity), and an id that no earlier row has. Table [post], the
    session, the flashed messages and [g.user] are as before. *)
Theorem register_success gph (s : state) req name pw :
  method req = POST →
  form req !! "username" = Some name →
  form req !! "password" = Some pw →
  name ≠ "" → pw ≠ "" →
  name ∉ User.username <$> users (db s) →
  ∃ u,
    register gph req s
    = (Ok (redirect (url_for auth_login)),
       State (Database (users (db s) ++ [u]) (posts (db s)))
             (session s) (flashes s) (g_user s))
    ∧ User.username u = name
    ∧ User.password u = gph pw
    ∧ User.id u ∉ User.id <$> users (db s).
Proof.
  intros Hm Hname Hpw Hn0 Hp0 Hfresh. eexists. split.
  - by apply register_fresh.
  - simpl. repeat split. apply next_rowid_fresh.
Qed.

Lemma register_success_witness :
  ∃ u,
    register Sample.hash
      (Sample.post_form [("username", "carol"); ("password", "pw3")])
      Sample.anonymous
    = (Ok (redirect "/auth/login"),
       State (Database [Sample.alice; Sample.bob; u] [Sample.first_post])
             ∅ [] None)
    ∧ User.username u = "carol".
Proof.
  destruct (register_success Sample.hash Sample.anonymous
              (Sample.post_form [("username", "carol"); ("password", "pw3")])
              "carol" "pw3")
    as (u & Hrun & Hname & _).
  - reflexivity.
  - reflexivity.
  - reflexivity.
  - discriminate.
  - discriminate.
  - compute_done.
  - exists u. split; [exact Hrun|exact Hname].
Defined.

(** X3. Registration and login fit together: when the hash of a password
    verifies against that password, the form that registered a new user
    logs that user in on the store the registration left, and the resolver
    then loads the new row into [g.user]. *)
Theorem register_then_login gph cph (s : state) req name pw :
  wf_database (db s) →
  cph (gph pw) pw = true →
  method req = POST →
  form req !! "username" = Some name →
  form req !! "password" = Some pw →
  name ≠ "" → pw ≠ "" →
  name ∉ User.username <$> users (db s) →
  ∃ s1 s2 u,
    register gph req s = (Ok (redirect (url_for auth_login)), s1)
    ∧ login cph req s1 = (Ok (redirect (url_for index_endpoint)), s2)
    ∧ session s2 = {["user_id" := User.id u]}
    ∧ load_logged_in_user s2
      = (Ok tt, State (db s1) (session s2) (flashes s2) (Some u))
    ∧ User.username u = name
    ∧ users (db s1) = users (db s) ++ [u].
Proof.
  intros Hwf Hhash Hm Hname Hpw Hn0 Hp0 Hfresh.
  set (u := User.Row (next_rowid (User.id <$> users (db s))) name (gph pw)).
  set (d1 := Database (users (db s) ++ [u]) (posts (db s))).
  assert (Hwf1 : wf_database d1).
  { apply (insert_user_wf (db s) name (gph pw)); [done..|].
    unfold insert_user. by rewrite decide_False by done. }
  assert (Hu : u ∈ users d1) by (simpl; set_solver).
  eexists _, _, u. split; [by apply register_fresh|].
  split; [|split; [|split; [|split]]].
  - by apply (login_success cph _ req u pw).
  - done.
  - rewrite (load_logged_in_user_present _ (User.id u))
      by apply lookup_singleton_eq.
    do 2 f_equal. exact (select_user_by_id_Some d1 u Hwf1 Hu).
  - done.
  - done.
Qed.

Lemma register_then_login_witness :
  ∃ s1 s2 u,
    register Sample.hash
      (Sample.post_form [("username", "carol"); ("password", "pw3")])
      Sample.anonymous
    = (Ok (redirect "/auth/login"), s1)
    ∧ login Sample.check
        (Sample.post_form [("username", "carol"); ("password", "pw3")]) s1
      = (Ok (redirect "/"), s2)
    ∧ session s2 = {["user_id" := User.id u]}.
Proof.
  destruct (register_then_login Sample.hash Sample.check Sample.anonymous
              (Sample.post_form [("username", "carol"); ("password", "pw3")])
              "carol" "pw3")
    as (s1 & s2 & u & Hreg & Hlogin & Hsess & _).
  - exact sample_store_wf.
  - reflexivity.
  - reflexivity.
  - reflexivity.
  - reflexivity.
  - discriminate.
  - discriminate.
  - compute_done.
  - exists s1, s2, u. split; [exact Hreg|]. split; [exact Hlogin|exact Hsess].
Defined.

(** ** Every request, seen from the store *)

(** Whatever the route, the method, the form and the state, one request
    changes the store in one of five ways only: not at all; by the insert
    of [register], of a name that is not empty; or, with [g.user] loaded
    from the session, by the insert of [create] under that user's id and
    with a title that is not empty, or by the update or delete of a post
    that the join finds and whose [author_id] is that user's id. *)
Lemma handle_request_db_step gph cph now r req (s : state) :
  db_step (resolved_user s) now (db s)
          (db (handle_request gph cph now r req s).2).
Proof.
  unfold resolved_user. split_views.
  all: try solve [ constructor ].
  all: try solve [ eapply step_register; [|eassumption]; assumption ].
  - eapply step_create; eauto.
  - eapply step_update; eauto. by apply dec_stable.
  - eapply step_delete; eauto. by apply dec_stable.
Qed.

Lemma insert_user_Some d name hash d' :
  insert_user d name hash = Some d' →
  (name ∉ User.username <$> users d)
  ∧ d' = Database
           (users d ++ [User.Row (next_rowid (User.id <$> users d)) name hash])
           (posts d).
Proof. unfold insert_user. case_decide; [done|]. by intros [= <-]. Qed.

Lemma head_filter_Some {A} (P : A → Prop) `{!∀ y, Decision (P y)} l x :
  head (filter P l) = Some x → x ∈ l ∧ P x.
Proof.
  intros Hhead. apply head_Some_elem_of in Hhead.
  by apply list_elem_of_filter in Hhead as [? ?].
Qed.

Lemma head_filter_app_l {A} (P : A → Prop) `{!∀ y, Decision (P y)} l l' x :
  head (filter P l) = Some x → head (filter P (l ++ l')) = Some x.
Proof.
  rewrite filter_app. destruct (filter P l); [done|]. by intros [= ->].
Qed.

Lemma select_post_by_id_inv d pid r :
  select_post_by_id d pid = Some r →
  ∃ p a, p ∈ posts d ∧ a ∈ users d ∧ Post.id p = pid
         ∧ Post.author_id p = User.id a ∧ r = join_row p a.
Proof.
  intros [Hr Hid]%head_filter_Some.
  apply list_elem_of_bind in Hr as (p & Hr & Hp).
  unfold authors_of in Hr.
  apply list_elem_of_fmap_1 in Hr as (a & -> & Ha).
  apply list_elem_of_filter in Ha as [Hauth Ha]. by exists p, a.
Qed.

Lemma unique_key_inj {A B} (f : A → B) `{!EqDecision B} (l : list A) x y :
  NoDup (f <$> l) → x ∈ l → y ∈ l → f y = f x → y = x.
Proof.
  intros Hnd Hx Hy Hxy.
  assert (Hin : y ∈ filter (λ z, f z = f x) l) by by apply list_elem_of_filter.
  rewrite (filter_unique_key f _ l x) in Hin by done.
  by apply list_elem_of_singleton in Hin.
Qed.

Lemma resolved_user_Some s u :
  resolved_user s = Some u →
  session s !! "user_id" = Some (User.id u)
  ∧ select_user_by_id (db s) (User.id u) = Some u.
Proof.
  unfold resolved_user, load_logged_in_user. run_view.
  destruct (session s !! "user_id") as [uid|]; [|done]. simpl.
  intros Hsel. pose proof Hsel as [_ <-]%head_filter_Some. done.
Qed.

Lemma db_step_users who now d d' :
  db_step who now d d' → users d `prefix_of` users d'.
Proof.
  intros [|name hash d1 _ [_ ->]%insert_user_Some| | |]; simpl; try done.
  by apply prefix_app_r.
Qed.

(** X5. No request removes or rewrites a row of [user]: the table after a
    request starts with the table before it. So an id that the resolver
    maps to a row still maps to that very row after any request, of the
    same client or another one. *)
Theorem users_append_only gph cph now r req (s : state) :
  (users (db s)
   `prefix_of` users (db (handle_request gph cph now r req s).2))
  ∧ ∀ uid u,
      select_user_by_id (db s) uid = Some u →
      select_user_by_id (db (handle_request gph cph now r req s).2) uid
      = Some u.
Proof.
  pose proof (db_step_users _ _ _ _
                (handle_request_db_step gph cph now r req s)) as Hpre.
  split; [done|]. intros uid u Hsel. destruct Hpre as [l' Hl'].
  unfold select_user_by_id. rewrite Hl'. by apply head_filter_app_l.
Qed.

Lemma users_append_only_witness :
  select_user_by_id
    (db (handle_request Sample.hash Sample.check 300 route_register
           (Sample.post_form [("username", "carol"); ("password", "pw3")])
           Sample.anonymous).2) 2
  = Some Sample.bob.
Proof.
  apply (proj2 (users_append_only Sample.hash Sample.check 300 route_register
                  (Sample.post_form
                     [("username", "carol"); ("password", "pw3")])
                  Sample.anonymous) 2%Z Sample.bob).
  reflexivity.
Defined.

Lemma elem_of_update_post d t b pid p' :
  p' ∈ posts (update_post d t b pid) →
  ∃ p, p ∈ posts d ∧ Post.id p' = Post.id p
       ∧ Post.author_id p' = Post.author_id p
       ∧ Post.created p' = Post.created p
       ∧ (p' = p ∨ (Post.id p = pid ∧ Post.title p' = t)).
Proof.
  unfold update_post. simpl. intros (p & -> & Hp)%list_elem_of_fmap_1.
  exists p. case_decide; simpl; repeat split; auto.
Qed.

Lemma elem_of_delete_post d pid p' :
  p' ∈ posts (delete_post d pid) ↔ p' ∈ posts d ∧ Post.id p' ≠ pid.
Proof.
  unfold delete_post. simpl. rewrite list_elem_of_filter. tauto.
Qed.

Lemma elem_of_insert_post d now t b author p' :
  p' ∈ posts (insert_post d now t b author) ↔
  p' ∈ posts d
  ∨ p' = Post.Row (next_rowid (Post.id <$> posts d)) t b now author.
Proof.
  unfold insert_post. simpl.
  by rewrite elem_of_app, list_elem_of_singleton.
Qed.

(** A row of [post] after a step is a row from before, possibly with a new
    title and body, or the row the step inserted. *)
Lemma db_step_posts who now d d' p' :
  db_step who now d d' → p' ∈ posts d' →
  (∃ p, p ∈ posts d ∧ Post.id p' = Post.id p
        ∧ Post.author_id p' = Post.author_id p
        ∧ Post.created p' = Post.created p
        ∧ (p' = p ∨ Post.title p' ≠ ""))
  ∨ ((Post.id p' ∉ Post.id <$> posts d)
     ∧ Post.created p' = now ∧ Post.title p' ≠ ""
     ∧ ∃ u, who = Some u ∧ Post.author_id p' = User.id u).
Proof.
  intros [|name hash d1 _ [_ ->]%insert_user_Some
          |u t b Hwho Ht|u r t b pid Hwho Hsel Hauth Ht|u r pid Hwho Hsel Hauth]
         Hp'.
  - left. exists p'. by repeat split; auto.
  - left. exists p'. by repeat split; auto.
  - apply elem_of_insert_post in Hp' as [Hp'| ->].
    + left. exists p'. by repeat split; auto.
    + right. simpl. repeat split; [apply next_rowid_fresh|done|by exists u].
  - apply elem_of_update_post in Hp' as (p & Hp & Hid & Ha & Hc & Hsame).
    left. exists p. repeat split; try done.
    destruct Hsame as [?|[_ ->]]; auto.
  - apply elem_of_delete_post in Hp' as [Hp' _]. left. exists p'. by repeat split; auto.
Qed.

(** X6. [author_id] and [created] of a post never change: in a store that
    meets the schema, whatever a request does, a row of [post] that carries
    the id of a row from before the request carries its [author_id] and its
    [created] too. *)
Theorem post_author_and_created_immutable gph cph now r req (s : state) p p' :
  wf_database (db s) →
  p ∈ posts (db s) →
  p' ∈ posts (db (handle_request gph cph now r req s).2) →
  Post.id p' = Post.id p →
  Post.author_id p' = Post.author_id p ∧ Post.created p' = Post.created p.
Proof.
  intros Hwf Hp Hp' Hid.
  destruct (db_step_posts _ _ _ _ p'
              (handle_request_db_step gph cph now r req s) Hp')
    as [(q & Hq & Hidq & Ha & Hc & _)|(Hfresh & _)].
  - assert (q = p) as ->.
    { apply (unique_key_inj Post.id (posts (db s))); [apply Hwf|done..|].
      congruence. }
    done.
  - exfalso. apply Hfresh. rewrite Hid. by apply list_elem_of_fmap_2.
Qed.

Lemma post_author_and_created_immutable_witness :
  Post.author_id (Post.Row 1 "T2" "B2" 100 1)
  = Post.author_id Sample.first_post
  ∧ Post.created (Post.Row 1 "T2" "B2" 100 1)
    = Post.created Sample.first_post.
Proof.
  apply (post_author_and_created_immutable Sample.hash Sample.check 300
           (route_update 1)
           (Sample.post_form [("title", "T2"); ("body", "B2")])
           (Sample.as_user Sample.alice) Sample.first_post
           (Post.Row 1 "T2" "B2" 100 1)).
  - exact sample_store_wf.
  - compute_done.
  - compute_done.
  - reflexivity.
Defined.

(** X7. A post that a request inserts belongs to the requester: a row of
    [post] whose id was not in use before the request has the id of the
    user the session resolves to as its [author_id], the time of the
    request as [created], and a title that is not empty. *)
Theorem new_post_belongs_to_requester gph cph now r req (s : state) p' :
  p' ∈ posts (db (handle_request gph cph now r req s).2) →
  Post.id p' ∉ Post.id <$> posts (db s) →
  Post.created p' = now ∧ Post.title p' ≠ ""
  ∧ ∃ u, session s !! "user_id" = Some (User.id u)
         ∧ select_user_by_id (db s) (User.id u) = Some u
         ∧ Post.author_id p' = User.id u.
Proof.
  intros Hp' Hnew.
  destruct (db_step_posts _ _ _ _ p'
              (handle_request_db_step gph cph now r req s) Hp')
    as [(q & Hq & Hidq & _)|(_ & Hc & Ht & u & Hwho & Ha)].
  - exfalso. apply Hnew. rewrite Hidq. by apply list_elem_of_fmap_2.
  - apply resolved_user_Some in Hwho as [Hsess Hsel].
    repeat split; [done..|]. by exists u.
Qed.

Lemma new_post_belongs_to_requester_witness :
  Post.created (Post.Row 2 "N" "" 300 2) = 300%Z
  ∧ Post.title (Post.Row 2 "N" "" 300 2) ≠ ""
  ∧ ∃ u, session (Sample.as_user Sample.bob) !! "user_id"
         = Some (User.id u)
         ∧ select_user_by_id Sample.store (User.id u) = Some u
         ∧ Post.author_id (Post.Row 2 "N" "" 300 2) = User.id u.
Proof.
  apply (new_post_belongs_to_requester Sample.hash Sample.check 300
           route_create (Sample.post_form [("title", "N"); ("body", "")])
           (Sample.as_user Sample.bob) (Post.Row 2 "N" "" 300 2)).
  - compute_done.
  - compute_done.
Defined.

Lemma db_step_changed_post who now d d' p :
  db_step who now d d' → wf_database d →
  p ∈ posts d → p ∉ posts d' →
  ∃ u, who = Some u ∧ User.id u = Post.author_id p.
Proof.
  assert (Hjoin : ∀ pid r, select_post_by_id d pid = Some r →
                           wf_database d → p ∈ posts d → Post.id p = pid →
                           Joined.author_id r = Post.author_id p).
  { intros pid r (q & a & Hq & _ & Hidq & _ & ->)%select_post_by_id_inv
           Hwf Hp Hid. simpl.
    rewrite (unique_key_inj Post.id (posts d) p q); [done|apply Hwf|done..|].
    congruence. }
  intros [|name hash d1 _ [_ ->]%insert_user_Some
          |u t b Hwho Ht|u r t b pid Hwho Hsel Hauth Ht|u r pid Hwho Hsel Hauth]
         Hwf Hp Hgone.
  - done.
  - done.
  - exfalso. apply Hgone, elem_of_insert_post. by left.
  - exists u. split; [done|]. rewrite <- Hauth.
    apply (Hjoin pid r); try done.
    destruct (decide (Post.id p = pid)) as [|Hne]; [done|].
    exfalso. apply Hgone. unfold update_post. simpl.
    apply list_elem_of_fmap. exists p. by rewrite decide_False.
  - exists u. split; [done|]. rewrite <- Hauth.
    apply (Hjoin pid r); try done.
    destruct (decide (Post.id p = pid)) as [|Hne]; [done|].
    exfalso. by apply Hgone, elem_of_delete_post.
Qed.

(** X8. Only its author changes or removes a post: in a store that meets
    the schema, if a row of [post] is no longer in the table after a
    request (it was rewritten or deleted), then the session of that request
    carries the post's [author_id], and a row of [user] has that id. *)
Theorem only_the_author_modifies gph cph now r req (s : state) p :
  wf_database (db s) →
  p ∈ posts (db s) →
  p ∉ posts (db (handle_request gph cph now r req s).2) →
  session s !! "user_id" = Some (Post.author_id p)
  ∧ ∃ u, select_user_by_id (db s) (Post.author_id p) = Some u.
Proof.
  intros Hwf Hp Hgone.
  destruct (db_step_changed_post _ _ _ _ p
              (handle_request_db_step gph cph now r req s) Hwf Hp Hgone)
    as (u & [Hsess Hsel]%resolved_user_Some & <-).
  split; [done|]. by exists u.
Qed.

Lemma only_the_author_modifies_witness :
  session (Sample.as_user Sample.alice) !! "user_id"
  = Some (Post.author_id Sample.first_post)
  ∧ ∃ u, select_user_by_id Sample.store (Post.author_id Sample.first_post)
         = Some u.
Proof.
  apply (only_the_author_modifies Sample.hash Sample.check 300
           (route_delete 1) (Request POST ∅) (Sample.as_user Sample.alice)
           Sample.first_post).
  - exact sample_store_wf.
  - compute_done.
  - compute_done.
Defined.

Lemma db_step_anonymous now d d' :
  db_step None now d d' → posts d' = posts d.
Proof.
  by intros [|name hash d1 _ [_ ->]%insert_user_Some| | |].
Qed.

(** X9. A request without a valid session never changes table [post]: when
    the session has no [user_id], or one that is the id of no row of
    [user], the table is the same after the request, on every route,
    [create] (which is not guarded) included. *)
Theorem anonymous_request_keeps_posts gph cph now r req (s : state) :
  (session s !! "user_id" = None
   ∨ ∃ uid, session s !! "user_id" = Some uid
            ∧ uid ∉ User.id <$> users (db s)) →
  posts (db (handle_request gph cph now r req s).2) = posts (db s).
Proof.
  intros Hanon. apply (db_step_anonymous now).
  assert (resolved_user s = None) as <-; [|apply handle_request_db_step].
  unfold resolved_user. destruct Hanon as [Hnone|(uid & Hsome & Hstale)].
  - by rewrite load_logged_in_user_absent.
  - rewrite (load_logged_in_user_present s uid) by done. simpl.
    by apply select_user_by_id_None.
Qed.

Lemma anonymous_request_keeps_posts_witness :
  posts (db (handle_request Sample.hash Sample.check 300 route_create
               (Sample.post_form [("title", "N"); ("body", "")])
               (State Sample.store {["user_id" := 9%Z]} [] None)).2)
  = [Sample.first_post].
Proof.
  apply (anonymous_request_keeps_posts Sample.hash Sample.check 300
           route_create (Sample.post_form [("title", "N"); ("body", "")])
           (State Sample.store {["user_id" := 9%Z]} [] None)).
  right. exists 9%Z. split; [reflexivity|compute_done].
Defined.

(** X10. No request stores a post without a title: if every row of [post]
    has a title that is not empty, so has every row after the request. *)
Theorem titles_stay_nonempty gph cph now r req (s : state) :
  (∀ p, p ∈ posts (db s) → Post.title p ≠ "") →
  ∀ p', p' ∈ posts (db (handle_request gph cph now r req s).2) →
        Post.title p' ≠ "".
Proof.
  intros Hall p' Hp'.
  destruct (db_step_posts _ _ _ _ p'
              (handle_request_db_step gph cph now r req s) Hp')
    as [(q & Hq & _ & _ & _ & [->|Ht])|(_ & _ & Ht & _)]; auto.
Qed.

Lemma titles_stay_nonempty_witness :
  Post.title (Post.Row 1 "T2" "B2" 100 1) ≠ "".
Proof.
  apply (titles_stay_nonempty Sample.hash Sample.check 300 (route_update 1)
           (Sample.post_form [("title", "T2"); ("body", "B2")])
           (Sample.as_user Sample.alice)).
  - intros p Hp. apply list_elem_of_singleton in Hp as ->. discriminate.
  - compute_done.
Defined.

(** X11. Every post keeps an author: if the [author_id] of every row of
    [post] is the id of a row of [user], the same holds after any request. *)
Theorem authors_stay_registered gph cph now r req (s : state) :
  (∀ p, p ∈ posts (db s) → Post.author_id p ∈ User.id <$> users (db s)) →
  ∀ p', p' ∈ posts (db (handle_request gph cph now r req s).2) →
        Post.author_id p'
        ∈ User.id <$> users (db (handle_request gph cph now r req s).2).
Proof.
  intros Hall p' Hp'.
  pose proof (handle_request_db_step gph cph now r req s) as Hstep.
  destruct (db_step_users _ _ _ _ Hstep) as [l' ->].
  rewrite fmap_app, elem_of_app. left.
  destruct (db_step_posts _ _ _ _ p' Hstep Hp')
    as [(q & Hq & _ & -> & _)|(_ & _ & _ & u & Hwho & ->)]; [by apply Hall|].
  apply resolved_user_Some in Hwho as [_ [Hu _]%head_filter_Some].
  by apply list_elem_of_fmap_2.
Qed.

Lemma authors_stay_registered_witness :
  Post.author_id (Post.Row 2 "N" "" 300 2)
  ∈ User.id <$> users (db (handle_request Sample.hash Sample.check 300
                             route_create
                             (Sample.post_form [("title", "N"); ("body", "")])
                             (Sample.as_user Sample.bob)).2).
Proof.
  apply (authors_stay_registered Sample.hash Sample.check 300 route_create
           (Sample.post_form [("title", "N"); ("body", "")])
           (Sample.as_user Sample.bob)).
  - intros p Hp. apply list_elem_of_singleton in Hp as ->. compute_done.
  - compute_done.
Defined.

(** ** Methods and the guard *)

Lemma load_logged_in_user_run s :
  load_logged_in_user s
  = (Ok tt, State (db s) (session s) (flashes s) (resolved_user s)).
Proof.
  unfold resolved_user, load_logged_in_user. run_view.
  by destruct (session s !! "user_id").
Qed.

Lemma handle_request_dispatch gph cph now r req s :
  handle_request gph cph now r req s
  = dispatch gph cph now r req
      (State (db s) (session s) (flashes s) (resolved_user s)).
Proof.
  unfold handle_request.
  by rewrite (bind_Ok _ _ _ _ _ (load_logged_in_user_run s)).
Qed.

Lemma resolved_user_anonymous s :
  (session s !! "user_id" = None
   ∨ ∃ uid, session s !! "user_id" = Some uid
            ∧ uid ∉ User.id <$> users (db s)) →
  resolved_user s = None.
Proof.
  unfold resolved_user. intros [Hnone|(uid & Hsome & Hstale)].
  - by rewrite load_logged_in_user_absent.
  - rewrite (load_logged_in_user_present s uid) by done. simpl.
    by apply select_user_by_id_None.
Qed.

(** X12. A GET never writes to the store, on any route and in any state:
    the views write on POST only, and [delete], the one view without a
    form, is registered for POST alone. (A GET of [/auth/logout] does
    clear the session.) *)
Theorem get_never_writes gph cph now r req (s : state) :
  method req = GET →
  db (handle_request gph cph now r req s).2 = db s.
Proof.
  intros Hm. rewrite handle_request_dispatch.
  generalize (resolved_user s). intros who.
  unfold dispatch. rewrite Hm.
  destruct r; simpl; try done.
  - unfold register. by rewrite Hm.
  - unfold login. by rewrite Hm.
  - unfold create. by rewrite Hm.
  - unfold Url.update, login_required, update_view, get_post, bind_integer.
    rewrite Hm.
    run_view. by repeat (case_match; simpl in *; simplify_eq; run_view).
Qed.

Lemma get_never_writes_witness :
  db (handle_request Sample.hash Sample.check 300 (route_delete 1)
        (Request GET ∅) (Sample.as_user Sample.alice)).2
  = Sample.store.
Proof.
  apply (get_never_writes Sample.hash Sample.check 300 (route_delete 1)
           (Request GET ∅) (Sample.as_user Sample.alice)).
  reflexivity.
Defined.

(** A request with a method that the route is not registered for is
    refused with 405 before the view runs: the store, the session and the
    flashed messages are as before. So a GET of [/<id>/delete] deletes
    nothing and a POST to [/auth/logout] does not log out. *)
Lemma method_not_allowed gph cph now r req (s : state) :
  method req ∉ methods r →
  handle_request gph cph now r req s
  = (Raise (HTTPException 405 None),
     State (db s) (session s) (flashes s) (resolved_user s)).
Proof.
  intros Hm. rewrite handle_request_dispatch. unfold dispatch.
  by rewrite decide_False.
Qed.

Lemma method_not_allowed_witness :
  handle_request Sample.hash Sample.check 300 route_logout (Request POST ∅)
                 (Sample.as_user Sample.alice)
  = (Raise (HTTPException 405 None), Sample.as_user Sample.alice).
Proof.
  apply (method_not_allowed Sample.hash Sample.check 300 route_logout
           (Request POST ∅) (Sample.as_user Sample.alice)).
  compute_done.
Defined.

(** X13. [update] and [delete] are guarded before anything is looked up: a
    request to either without a valid session is redirected to the login
    page, whatever id it names (stored or not) and whatever the form
    holds; the store, the session and the flashed messages are as before. *)
Theorem guarded_views_redirect_anonymous gph cph now id req (s : state) :
  (session s !! "user_id" = None
   ∨ ∃ uid, session s !! "user_id" = Some uid
            ∧ uid ∉ User.id <$> users (db s)) →
  handle_request gph cph now (route_update id) req s
  = (Ok (redirect (url_for auth_login)),
     State (db s) (session s) (flashes s) None)
  ∧ (method req = POST →
     handle_request gph cph now (route_delete id) req s
     = (Ok (redirect (url_for auth_login)),
        State (db s) (session s) (flashes s) None)).
Proof.
  intros Hanon%resolved_user_anonymous.
  rewrite !handle_request_dispatch, Hanon. unfold dispatch. split.
  - rewrite decide_True; [done|]. simpl. destruct (method req); set_solver.
  - intros ->. by rewrite decide_True by set_solver.
Qed.

Lemma guarded_views_redirect_anonymous_witness :
  handle_request Sample.hash Sample.check 300 (route_update 5)
                 (Request GET ∅) Sample.anonymous
  = (Ok (redirect "/auth/login"), Sample.anonymous).
Proof.
  apply (guarded_views_redirect_anonymous Sample.hash Sample.check 300 5
           (Request GET ∅) Sample.anonymous).
  by left.
Defined.

(** ** The blog views *)

(** X14. [create] reads [title] and [body] and validates the title before
    it looks at [g.user]: a POST that carries an empty title and a [body]
    field renders the form again with the message "title is required" and
    writes nothing, with or without a logged-in user. *)
Theorem create_requires_title now (s : state) req b :
  method req = POST →
  form req !! "title" = Some "" →
  form req !! "body" = Some b →
  create now req s
  = (Ok (render_template "blog/create.html" no_context),
     State (db s) (session s) (flashes s ++ ["title is required"])
           (g_user s)).
Proof.
  intros Hm Ht Hb. unfold create. rewrite Hm. run_view.
  by rewrite Ht, Hb.
Qed.

Lemma create_requires_title_witness :
  create 300 (Sample.post_form [("title", ""); ("body", "B")])
         Sample.anonymous
  = (Ok (render_template "blog/create.html" no_context),
     State Sample.store ∅ ["title is required"] None).
Proof.
  apply (create_requires_title 300 Sample.anonymous
           (Sample.post_form [("title", ""); ("body", "B")]) "B").
  - reflexivity.
  - reflexivity.
  - reflexivity.
Defined.

Lemma get_post_as_author (s : state) u p :
  wf_database (db s) → g_user s = Some u → u ∈ users (db s) →
  p ∈ posts (db s) → Post.author_id p = User.id u →
  get_post (Post.id p) true s = (Ok (join_row p u), s).
Proof.
  intros Hwf Hg Hu Hp Hauth.
  rewrite (get_post_found s _ (join_row p u))
    by by apply select_post_by_id_Some.
  rewrite Hg. rewrite decide_False; [done|]. simpl. intros Hne. by apply Hne.
Qed.

Lemma update_as_author (s : state) req u p :
  wf_database (db s) → g_user s = Some u → u ∈ users (db s) →
  p ∈ posts (db s) → Post.author_id p = User.id u →
  update req (Post.id p) s
  = match method req with
    | GET => (Ok (render_template "blog/update.html"
                    (post_context (join_row p u))), s)
    | POST =>
        match form req !! "title", form req !! "body" with
        | Some t, Some b =>
            if decide (t = "") then
              (Ok (render_template "blog/update.html"
                     (post_context (join_row p u))),
               State (db s) (session s) (flashes s ++ ["title is required"])
                     (g_user s))
            else
              (Ok (redirect (url_for blog_index)),
               State (update_post (db s) t b (Post.id p)) (session s)
                     (flashes s) (g_user s))
        | _, _ => (Raise (HTTPException 400 None), s)
        end
    end.
Proof.
  intros Hwf Hg Hu Hp Hauth.
  unfold update, login_required, update_view.
  unfold bind at 1. unfold get_state at 1. rewrite Hg.
  rewrite (bind_Ok _ _ _ _ _ (get_post_as_author s u p Hwf Hg Hu Hp Hauth)).
  destruct (method req); [done|]. run_view.
  destruct (form req !! "title") as [t|]; [|done]. simpl.
  destruct (form req !! "body") as [b|]; [|done]. simpl.
  case_decide; by rewrite Hg.
Qed.

(** X15. A POST to [update] by the author that carries an empty title and a
    [body] field changes nothing in the store: the edit form is rendered
    again, with the stored post in its context, and "title is required" is
    flashed. *)
Theorem update_requires_title (s : state) req u p b :
  wf_database (db s) → g_user s = Some u → u ∈ users (db s) →
  p ∈ posts (db s) → Post.author_id p = User.id u →
  method req = POST →
  form req !! "title" = Some "" → form req !! "body" = Some b →
  update req (Post.id p) s
  = (Ok (render_template "blog/update.html" (post_context (join_row p u))),
     State (db s) (session s) (flashes s ++ ["title is required"])
           (g_user s)).
Proof.
  intros Hwf Hg Hu Hp Hauth Hm Ht Hb.
  rewrite (update_as_author s req u p) by done.
  by rewrite Hm, Ht, Hb.
Qed.

Lemma update_requires_title_witness :
  update (Sample.post_form [("title", ""); ("body", "B2")]) 1
         (Sample.as_user Sample.alice)
  = (Ok (render_template "blog/update.html"
           (post_context (Joined.Row 1 "T" "B" 100 1 "alice"))),
     State Sample.store {["user_id" := 1%Z]} ["title is required"]
           (Some Sample.alice)).
Proof.
  apply (update_requires_title (Sample.as_user Sample.alice)
           (Sample.post_form [("title", ""); ("body", "B2")])
           Sample.alice Sample.first_post "B2").
  - exact sample_store_wf.
  - reflexivity.
  - compute_done.
  - compute_done.
  - reflexivity.
  - reflexivity.
  - reflexivity.
  - reflexivity.
Defined.

(** X16. A logged-in user who is not the author can neither open the edit
    form nor update nor delete: [update], on GET and on POST and whatever
    the form holds, and [delete] abort with 403 and leave the whole state
    as it was. *)
Theorem non_author_is_forbidden (s : state) req a b p :
  wf_database (db s) →
  a ∈ users (db s) → b ∈ users (db s) → a ≠ b →
  p ∈ posts (db s) → Post.author_id p = User.id a →
  g_user s = Some b →
  update req (Post.id p) s = (Raise (HTTPException 403 None), s)
  ∧ delete (Post.id p) s = (Raise (HTTPException 403 None), s).
Proof.
  intros Hwf Ha Hb Hab Hp Hauth Hg.
  assert (Hget : get_post (Post.id p) true s
                 = (Raise (HTTPException 403 None), s)).
  { rewrite (get_post_found s _ (join_row p a))
      by by apply select_post_by_id_Some.
    rewrite Hg. simpl. rewrite decide_True; [done|].
    rewrite Hauth. intros Hid. apply Hab. symmetry.
    by apply (unique_key_inj User.id (users (db s))); [apply Hwf|..]. }
  split.
  - unfold update, login_required, update_view.
    unfold bind at 1. unfold get_state at 1. rewrite Hg.
    by rewrite (bind_Raise _ _ _ _ _ Hget).
  - unfold delete, login_required, delete_view.
    unfold bind at 1. unfold get_state at 1. rewrite Hg.
    by rewrite (bind_Raise _ _ _ _ _ Hget).
Qed.

Lemma non_author_is_forbidden_witness :
  update (Request GET ∅) 1 (Sample.as_user Sample.bob)
  = (Raise (HTTPException 403 None), Sample.as_user Sample.bob)
  ∧ delete 1 (Sample.as_user Sample.bob)
    = (Raise (HTTPException 403 None), Sample.as_user Sample.bob).
Proof.
  apply (non_author_is_forbidden (Sample.as_user Sample.bob) (Request GET ∅)
           Sample.alice Sample.bob Sample.first_post).
  - exact sample_store_wf.
  - compute_done.
  - compute_done.
  - discriminate.
  - compute_done.
  - reflexivity.
  - reflexivity.
Defined.

(** X17. A delete by the author removes that post and nothing else: the
    view redirects to the index, table [post] loses exactly the row of
    that id, table [user], the session and the flashed messages are as
    before, and a later [get_post] of the id aborts with 404. *)
Theorem delete_by_author (s : state) u p :
  wf_database (db s) → g_user s = Some u → u ∈ users (db s) →
  p ∈ posts (db s) → Post.author_id p = User.id u →
  ∃ d',
    delete (Post.id p) s
    = (Ok (redirect (url_for blog_index)),
       State d' (session s) (flashes s) (g_user s))
    ∧ users d' = users (db s)
    ∧ (∀ q, q ∈ posts d' ↔ q ∈ posts (db s) ∧ q ≠ p)
    ∧ ∀ sess fl g check_author,
        get_post (Post.id p) check_author (State d' sess fl g)
        = (Raise (HTTPException 404
                    (Some ("post id " +:+ pretty (Post.id p)
                           +:+ " does not exist"))),
           State d' sess fl g).
Proof.
  intros Hwf Hg Hu Hp Hauth. exists (delete_post (db s) (Post.id p)).
  assert (Hposts : ∀ q, q ∈ posts (delete_post (db s) (Post.id p))
                        ↔ q ∈ posts (db s) ∧ q ≠ p).
  { intros q. rewrite elem_of_delete_post. split; intros [Hq Hne].
    - split; [done|]. by intros ->.
    - split; [done|]. intros Hid. apply Hne.
      by apply (unique_key_inj Post.id (posts (db s))); [apply Hwf|..]. }
  split; [|split; [done|split; [done|]]].
  - unfold delete, login_required, delete_view.
    unfold bind at 1. unfold get_state at 1. rewrite Hg.
    rewrite (bind_Ok _ _ _ _ _ (get_post_as_author s u p Hwf Hg Hu Hp Hauth)).
    run_view. by rewrite Hg.
  - intros sess fl g check_author. apply get_post_missing. simpl.
    apply select_post_by_id_absent.
    intros (q & Hid & [_ Hne]%elem_of_delete_post)%list_elem_of_fmap_1.
    by apply Hne.
Qed.

Lemma delete_by_author_witness :
  ∃ d',
    delete 1 (Sample.as_user Sample.alice)
    = (Ok (redirect "/"),
       State d' {["user_id" := 1%Z]} [] (Some Sample.alice))
    ∧ users d' = [Sample.alice; Sample.bob].
Proof.
  destruct (delete_by_author (Sample.as_user Sample.alice) Sample.alice
              Sample.first_post)
    as (d' & Hrun & Husers & _).
  - exact sample_store_wf.
  - reflexivity.
  - compute_done.
  - compute_done.
  - reflexivity.
  - exists d'. split; [exact Hrun|exact Husers].
Defined.

(** X18. What a logged-in user creates can be fetched back: a POST to
    [create] with a title that is not empty redirects to the index and
    appends one row to [post], with the given title and body, the time of
    the request and the user's id; [get_post] of the new id, with the
    author check, returns that row joined with the user's name, and the
    index lists it. *)
Theorem create_then_get_post now (s : state) req u t b :
  wf_database (db s) → g_user s = Some u → u ∈ users (db s) →
  method req = POST →
  form req !! "title" = Some t → t ≠ "" →
  form req !! "body" = Some b →
  ∃ s' pid,
    let p := Post.Row pid t b now (User.id u) in
    create now req s = (Ok (redirect (url_for blog_index)), s')
    ∧ posts (db s') = posts (db s) ++ [p]
    ∧ users (db s') = users (db s)
    ∧ (pid ∉ Post.id <$> posts (db s))
    ∧ get_post pid true s' = (Ok (join_row p u), s')
    ∧ join_row p u ∈ select_posts_newest_first (db s').
Proof.
  intros Hwf Hg Hu Hm Ht Ht0 Hb.
  set (pid := next_rowid (Post.id <$> posts (db s))).
  set (p := Post.Row pid t b now (User.id u)).
  set (s' := State (insert_post (db s) now t b (User.id u)) (session s)
                   (flashes s) (g_user s)).
  assert (Hwf' : wf_database (db s')) by by apply insert_post_wf.
  assert (Hp : p ∈ posts (db s')) by (apply elem_of_insert_post; by right).
  exists s', pid. simpl. split; [|split; [done|split; [done|split; [|split]]]].
  - unfold create. rewrite Hm. run_view. rewrite Ht, Hb. simpl.
    rewrite decide_False by done. run_view. by rewrite Hg.
  - apply next_rowid_fresh.
  - by apply (get_post_as_author s' u p).
  - apply elem_of_select_posts_newest_first.
    unfold post_join_user. apply list_elem_of_bind. exists p. split; [|done].
    unfold authors_of. apply list_elem_of_fmap_2.
    by apply list_elem_of_filter.
Qed.

Lemma create_then_get_post_witness :
  ∃ s' pid,
    create 300 (Sample.post_form [("title", "N"); ("body", "")])
           (Sample.as_user Sample.bob)
    = (Ok (redirect "/"), s')
    ∧ get_post pid true s'
      = (Ok (Joined.Row pid "N" "" 300 2 "bob"), s').
Proof.
  destruct (create_then_get_post 300 (Sample.as_user Sample.bob)
              (Sample.post_form [("title", "N"); ("body", "")])
              Sample.bob "N" "")
    as (s' & pid & Hrun & _ & _ & _ & Hget & _).
  - exact sample_store_wf.
  - reflexivity.
  - compute_done.
  - reflexivity.
  - reflexivity.
  - discriminate.
  - reflexivity.
  - exists s', pid. split; [exact Hrun|exact Hget].
Defined.

(** X19. Without the author check [get_post] is public: for a stored post
    whose author is stored, [get_post(id, check_author=False)] returns the
    post joined with the author's name whatever [g.user] is, [None] and
    other users included. *)
Theorem get_post_without_author_check d sess fl g p a :
  wf_database d →
  p ∈ posts d → a ∈ users d → Post.author_id p = User.id a →
  get_post (Post.id p) false (State d sess fl g)
  = (Ok (join_row p a), State d sess fl g).
Proof.
  intros Hwf Hp Ha Hauth. unfold get_post. run_view.
  by rewrite (select_post_by_id_Some d p a).
Qed.

Lemma get_post_without_author_check_witness :
  get_post 1 false Sample.anonymous
  = (Ok (Joined.Row 1 "T" "B" 100 1 "alice"), Sample.anonymous).
Proof.
  apply (get_post_without_author_check Sample.store ∅ [] None
           Sample.first_post Sample.alice).
  - exact sample_store_wf.
  - compute_done.
  - compute_done.
  - reflexivity.
Defined.

(** X20. A POST that lacks a field the view reads is refused with 400 and
    changes nothing: [register] and [login] without [username] or
    [password], [create] without [title] or [body] (before [g.user] is
    looked at, so also for an anonymous request). *)
Theorem missing_form_field gph cph now (s : state) req :
  method req = POST →
  ((form req !! "username" = None ∨ form req !! "password" = None) →
   register gph req s = (Raise (HTTPException 400 None), s)
   ∧ login cph req s = (Raise (HTTPException 400 None), s))
  ∧ ((form req !! "title" = None ∨ form req !! "body" = None) →
     create now req s = (Raise (HTTPException 400 None), s)).
Proof.
  intros Hm. split.
  - intros Hmiss. unfold register, login. rewrite Hm. run_view.
    destruct (form req !! "username"); simpl;
      destruct (form req !! "password"); simpl; try done;
      by destruct Hmiss.
  - intros Hmiss. unfold create. rewrite Hm. run_view.
    destruct (form req !! "title"); simpl;
      destruct (form req !! "body"); simpl; try done;
      by destruct Hmiss.
Qed.

Lemma missing_form_field_witness :
  create 300 (Sample.post_form [("title", "N")]) Sample.anonymous
  = (Raise (HTTPException 400 None), Sample.anonymous).
Proof.
  apply (proj2 (missing_form_field Sample.hash Sample.check 300
                  Sample.anonymous (Sample.post_form [("title", "N")])
                  eq_refl)).
  by right.
Defined.

Lemma update_post_idem d t b pid :
  update_post (update_post d t b pid) t b pid = update_post d t b pid.
Proof.
  unfold update_post. simpl. f_equal. rewrite <- list_fmap_compose.
  apply list_fmap_ext. intros i p _. simpl.
  destruct (decide (Post.id p = pid)) as [Hid|Hid]; simpl.
  - by rewrite decide_True.
  - by rewrite decide_False.
Qed.

(** X21. Submitting the same edit twice is the same as submitting it once:
    after a successful update by the author, the same request succeeds
    again and leaves the state exactly as the first one left it. *)
Theorem update_twice (s : state) req u p t b :
  wf_database (db s) → g_user s = Some u → u ∈ users (db s) →
  p ∈ posts (db s) → Post.author_id p = User.id u →
  method req = POST →
  form req !! "title" = Some t → form req !! "body" = Some b → t ≠ "" →
  ∃ s1,
    update req (Post.id p) s = (Ok (redirect (url_for blog_index)), s1)
    ∧ update req (Post.id p) s1 = (Ok (redirect (url_for blog_index)), s1).
Proof.
  intros Hwf Hg Hu Hp Hauth Hm Ht Hb Ht0.
  set (s1 := State (update_post (db s) t b (Post.id p)) (session s)
                   (flashes s) (g_user s)).
  exists s1. split.
  - rewrite (update_as_author s req u p) by done.
    rewrite Hm, Ht, Hb. by rewrite decide_False.
  - assert (Hp1 : set_title_body t b p ∈ posts (db s1)).
    { simpl. apply list_elem_of_fmap. exists p. by rewrite decide_True. }
    pose proof (update_as_author s1 req u (set_title_body t b p)
                  (update_post_wf _ t b (Post.id p) Hwf) Hg Hu Hp1 Hauth)
      as Hrun.
    rewrite Hm, Ht, Hb, decide_False in Hrun by done. simpl in Hrun.
    by rewrite update_post_idem in Hrun.
Qed.

Lemma update_twice_witness :
  ∃ s1,
    update (Sample.post_form [("title", "T2"); ("body", "B2")]) 1
           (Sample.as_user Sample.alice)
    = (Ok (redirect "/"), s1)
    ∧ update (Sample.post_form [("title", "T2"); ("body", "B2")]) 1 s1
      = (Ok (redirect "/"), s1).
Proof.
  apply (update_twice (Sample.as_user Sample.alice)
           (Sample.post_form [("title", "T2"); ("body", "B2")])
           Sample.alice Sample.first_post "T2" "B2").
  - exact sample_store_wf.
  - reflexivity.
  - compute_done.
  - compute_done.
  - reflexivity.
  - reflexivity.
  - reflexivity.
  - reflexivity.
  - discriminate.
Defined.

(** ** The listing *)

#[local] Instance created_desc_trans : Transitive created_desc.
Proof. unfold created_desc. intros r1 r2 r3. lia. Qed.

#[local] Instance created_desc_total : Total created_desc.
Proof. unfold created_desc. intros r1 r2. lia. Qed.

Lemma authors_of_unique us p a :
  NoDup (User.id <$> us) → a ∈ us → Post.author_id p = User.id a →
  authors_of us p = [join_row p a].
Proof.
  intros Hnd Ha Hauth. unfold authors_of.
  rewrite (filter_unique_key User.id _ us a); [done..|].
  intros y. split; congruence.
Qed.

Lemma post_join_user_ids us ps :
  NoDup (User.id <$> us) →
  (∀ p, p ∈ ps → Post.author_id p ∈ User.id <$> us) →
  Joined.id <$> (ps ≫= authors_of us) = Post.id <$> ps.
Proof.
  intros Hnd. induction ps as [|p ps IH]; intros Hfk; [done|].
  rewrite bind_cons, fmap_app, IH by (intros q Hq; apply Hfk; by right).
  destruct (list_elem_of_fmap_1 User.id us (Post.author_id p))
    as (a & Hauth & Ha); [apply Hfk; by left|].
  by rewrite (authors_of_unique us p a).
Qed.

(** X22. The index is newest first, and lists each post once: the rows it
    hands to the template are sorted by [created], descending, and are a
    rearrangement of the join of [post] with [user]; in a store that meets
    the schema and in which every post has a stored author, their ids are
    a rearrangement of the ids of table [post]. *)
Theorem index_newest_first (s : state) :
  ∃ rows,
    index s = (Ok (render_template "blog/index.html" (posts_context rows)), s)
    ∧ StronglySorted created_desc rows
    ∧ rows ≡ₚ post_join_user (db s)
    ∧ (wf_database (db s) →
       (∀ p, p ∈ posts (db s)
             → Post.author_id p ∈ User.id <$> users (db s)) →
       Joined.id <$> rows ≡ₚ Post.id <$> posts (db s)).
Proof.
  exists (select_posts_newest_first (db s)).
  split; [apply index_lists|]. unfold select_posts_newest_first.
  split; [apply sort_newest_sorted|].
  split; [apply sort_newest_Permutation|].
  intros Hwf Hfk. rewrite sort_newest_Permutation.
  unfold post_join_user. by rewrite post_join_user_ids by (done || apply Hwf).
Qed.

Lemma index_newest_first_witness :
  ∃ rows,
    index (Scenario.updated)
    = (Ok (render_template "blog/index.html" (posts_context rows)),
       Scenario.updated)
    ∧ Joined.id <$> rows ≡ₚ [1%Z].
Proof.
  destruct (index_newest_first Scenario.updated)
    as (rows & Hrun & _ & _ & Hids).
  exists rows. split; [exact Hrun|]. apply Hids.
  - split; compute_done.
  - intros p Hp. vm_compute in Hp.
    apply list_elem_of_singleton in Hp as ->. compute_done.
Defined.

(** ** [flaskr/db.py] *)

Module ConnectionFacts.
Import Connection.

Lemma get_db_cached s h : g_db s = Some h → get_db s = (Some h, s).
Proof. unfold get_db. by intros ->. Qed.

Lemma get_db_opened s path :
  g_db s = None → config s !! "DATABASE" = Some path →
  get_db s
  = (Some (fresh (dom (heap s))),
     State (config s)
           (<[fresh (dom (heap s)) := Conn path sqlite3_Row false]> (heap s))
           (Some (fresh (dom (heap s))))).
Proof.
  intros Hg Hpath. unfold get_db, connect, set_row_factory.
  rewrite Hg, Hpath. simpl. by rewrite alter_insert_eq.
Qed.

Lemma fresh_handle_unused s : heap s !! fresh (dom (heap s)) = None.
Proof. apply not_elem_of_dom, is_fresh. Qed.

Lemma get_db_open_is_g_db s : open_is_g_db s → open_is_g_db (get_db s).2.
Proof.
  intros Hinv. destruct (g_db s) as [h|] eqn:Hg.
  - by rewrite (get_db_cached s h).
  - destruct (config s !! "DATABASE") as [path|] eqn:Hpath.
    + rewrite (get_db_opened s path) by done. simpl. intros h c. simpl.
      destruct (decide (fresh (dom (heap s)) = h)) as [->|Hne]; [done|].
      rewrite lookup_insert_ne by done. intros Hc Hopen.
      specialize (Hinv h c Hc Hopen). congruence.
    + unfold get_db. by rewrite Hg, Hpath.
Qed.

Lemma get_db_keeps s0 s : keeps s0 s → keeps s0 (get_db s).2.
Proof.
  intros Hinv. destruct (g_db s) as [h|] eqn:Hg.
  - by rewrite (get_db_cached s h).
  - destruct (config s !! "DATABASE") as [path|] eqn:Hpath.
    + rewrite (get_db_opened s path) by done. simpl. intros h c Hc. simpl.
      destruct (Hinv h c Hc) as [Hc' _].
      assert (fresh (dom (heap s)) ≠ h).
      { intros <-. by rewrite fresh_handle_unused in Hc'. }
      rewrite lookup_insert_ne by done. split; [done|congruence].
    + unfold get_db. by rewrite Hg, Hpath.
Qed.

Lemma iter_get_db_invariants n s :
  quiescent s →
  open_is_g_db (Nat.iter n (λ s, (get_db s).2) s)
  ∧ keeps s (Nat.iter n (λ s, (get_db s).2) s).
Proof.
  intros [Hg Hclosed]. induction n as [|n [IH1 IH2]]; simpl.
  - split.
    + intros h c Hc Hopen. rewrite (Hclosed h c Hc) in Hopen. done.
    + intros h c Hc. split; [done|]. by rewrite Hg.
  - split; [by apply get_db_open_is_g_db|by apply get_db_keeps].
Qed.
End ConnectionFacts.

(** X23. [get_db] opens at most one connection per request. When [g] holds
    none and the configuration names a database, it opens one connection to
    that database, under a handle that no other connection has, sets its
    row factory to [sqlite3.Row], and stores it in [g.db], leaving the
    other connections as they are; called again it returns the same
    handle and changes nothing. *)
Theorem get_db_opens_once (s : Connection.state) path :
  Connection.g_db s = None →
  Connection.config s !! "DATABASE" = Some path →
  ∃ h s1,
    Connection.get_db s = (Some h, s1)
    ∧ Connection.heap s !! h = None
    ∧ Connection.heap s1
      = <[h := Connection.Conn path Connection.sqlite3_Row false]>
          (Connection.heap s)
    ∧ Connection.g_db s1 = Some h
    ∧ Connection.get_db s1 = (Some h, s1).
Proof.
  intros Hg Hpath. eexists _, _.
  split; [by apply ConnectionFacts.get_db_opened|].
  split; [apply ConnectionFacts.fresh_handle_unused|].
  split; [done|]. split; [done|]. by apply ConnectionFacts.get_db_cached.
Qed.

Lemma get_db_opens_once_witness :
  ∃ h s1,
    Connection.get_db
      (Connection.State {["DATABASE" := "flaskr.sqlite"]} ∅ None)
    = (Some h, s1)
    ∧ Connection.get_db s1 = (Some h, s1).
Proof.
  destruct (get_db_opens_once
              (Connection.State {["DATABASE" := "flaskr.sqlite"]} ∅ None)
              "flaskr.sqlite")
    as (h & s1 & Hrun & _ & _ & _ & Hagain).
  - reflexivity.
  - reflexivity.
  - exists h, s1. split; [exact Hrun|exact Hagain].
Defined.

(** X24. A request leaks no connection: started with no open connection
    and nothing in [g.db], a request that calls [get_db] any number of
    times and ends with [close_db] leaves no open connection and nothing in
    [g.db], and the connections that were there before are untouched. *)
Theorem close_db_leaves_no_connection n (s : Connection.state) :
  Connection.quiescent s →
  Connection.quiescent (Connection.request_with_gets n s)
  ∧ ∀ h c, Connection.heap s !! h = Some c →
           Connection.heap (Connection.request_with_gets n s) !! h = Some c.
Proof.
  intros Hq.
  destruct (ConnectionFacts.iter_get_db_invariants n s Hq) as [Hopen Hkeeps].
  unfold Connection.request_with_gets.
  set (s' := Nat.iter n (λ s, (Connection.get_db s).2) s) in *.
  unfold Connection.close_db.
  destruct (Connection.g_db s') as [h|] eqn:Hg; simpl.
  - split; [split; [done|]|]; simpl.
    + intros h' c. destruct (decide (h = h')) as [<-|Hne].
      * rewrite lookup_alter_eq.
        destruct (Connection.heap s' !! h); simpl; [|done].
        by intros [= <-].
      * rewrite lookup_alter_ne by done. intros Hc.
        destruct (Connection.closed c) eqn:Hclosed; [done|].
        specialize (Hopen h' c Hc Hclosed). congruence.
    + intros h' c Hc. destruct (Hkeeps h' c Hc) as [Hc' Hne].
      rewrite lookup_alter_ne; [done|]. congruence.
  - split; [split; [done|]|]; simpl.
    + intros h' c Hc. destruct (Connection.closed c) eqn:Hclosed; [done|].
      specialize (Hopen h' c Hc Hclosed). congruence.
    + intros h' c Hc. by destruct (Hkeeps h' c Hc).
Qed.

Lemma close_db_leaves_no_connection_witness :
  Connection.quiescent
    (Connection.request_with_gets 3
       (Connection.State {["DATABASE" := "flaskr.sqlite"]} ∅ None)).
Proof.
  apply (close_db_leaves_no_connection 3
           (Connection.State {["DATABASE" := "flaskr.sqlite"]} ∅ None)).
  split; [reflexivity|]. intros h c Hc. simpl in Hc.
  by rewrite lookup_empty in Hc.
Defined.

(** ** [app.py] *)

Lemma foldl_sort_item isdir acc items :
  foldl (Explorer.sort_item isdir) acc items
  = (acc.1 ++ filter (λ x, isdir x = true) items,
     acc.2 ++ filter (λ x, isdir x = false) items).
Proof.
  revert acc. induction items as [|x items IH]; intros [ds fs]; simpl.
  - by rewrite !app_nil_r.
  - rewrite IH. unfold Explorer.sort_item. simpl.
    destruct (isdir x) eqn:Hx; simpl.
    + rewrite filter_cons_True, filter_cons_False by (by rewrite Hx).
      by rewrite <- app_assoc.
    + rewrite filter_cons_False, filter_cons_True by (by rewrite Hx).
      by rewrite <- app_assoc.
Qed.

(** X25. [explore] splits the listing of the requested directory (of "."
    when the request names none) in two: [directories] are the items for
    which [os.path.isdir] holds and [files] are the others, each in the
    order of the listing, so that every listed item is in exactly one of
    the two; both lines are printed first. *)
Theorem explore_partitions listdir isdir args items :
  listdir (default "." (args !! "path")) = Some items →
  ∃ l,
    Explorer.explore listdir isdir args
    = (["getting results for path: " +:+ default "." (args !! "path");
        "iterating through items in " +:+ default "." (args !! "path")],
       Some l)
    ∧ Explorer.directories l = filter (λ x, isdir x = true) items
    ∧ Explorer.files l = filter (λ x, isdir x = false) items
    ∧ Explorer.directories l ++ Explorer.files l ≡ₚ items
    ∧ ∀ x, ¬ (x ∈ Explorer.directories l ∧ x ∈ Explorer.files l).
Proof.
  intros Hlist. unfold Explorer.explore. rewrite Hlist.
  rewrite foldl_sort_item. simpl. eexists. split; [done|]. simpl.
  split; [done|]. split; [done|]. split.
  - rewrite <- (filter_app_complement (λ x, isdir x = true) items) at 3.
    f_equiv. apply reflexive_eq, list_filter_iff. intros x.
    by destruct (isdir x).
  - intros x [[Hd _]%list_elem_of_filter [Hf _]%list_elem_of_filter].
    congruence.
Qed.

Lemma explore_partitions_witness :
  ∃ l,
    Explorer.explore SampleDir.listdir SampleDir.isdir ∅
    = (["getting results for path: ."; "iterating through items in ."],
       Some l)
    ∧ Explorer.directories l = ["flaskr"]
    ∧ Explorer.files l = ["app.py"; "README.md"].
Proof.
  destruct (explore_partitions SampleDir.listdir SampleDir.isdir ∅
              ["app.py"; "flaskr"; "README.md"])
    as (l & Hrun & Hd & Hf & _).
  - reflexivity.
  - exists l. split; [exact Hrun|]. split; [exact Hd|exact Hf].
Defined.

Lemma handle_request_wf_witness :
  wf_database
    (db (handle_request Sample.hash Sample.check 300 route_register
           (Sample.post_form [("username", "carol"); ("password", "pw3")])
           Sample.anonymous).2).
Proof.
  apply (handle_request_wf Sample.hash Sample.check 300 route_register
           (Sample.post_form [("username", "carol"); ("password", "pw3")])
           Sample.anonymous).
  exact sample_store_wf.
Defined.

(** X26. The auth views stay in their lane: [register] never touches the
    session or [g.user] (it logs nobody in), and [login] and [logout]
    never write to the store, whatever the method, the form and the state
    are. *)
Theorem auth_views_frame gph cph (s : state) req :
  (session (register gph req s).2 = session s
   ∧ g_user (register gph req s).2 = g_user s)
  ∧ db (login cph req s).2 = db s
  ∧ db (logout s).2 = db s.
Proof.
  split; [|split; [|done]].
  - unfold register. run_view.
    repeat (case_match; simpl in *; simplify_eq; run_view);
      unfold raise, ret in *; by simplify_eq.
  - unfold login. run_view.
    repeat (case_match; simpl in *; simplify_eq; run_view);
      unfold raise, ret in *; by simplify_eq.
Qed.
